(** * MEDTRACKING authentication core: a shallow embedding

    The development follows the TypeScript sources

    - [services/bcrypt.service.ts]: password policy and hashing;
    - [jwt.service.ts], the class [JWTService] (it follows the validators in
      [services/src/utils/validators.ts]): token issuing and verification;
    - [auth.middleware.ts] (the unnamed source part): the request gates and
      the class [RateLimiter];
    - [services/auth.service.ts]: register, login, refresh and the profile
      operations;
    - the validators [validateEmail], [validateName] and [validateRequired]
      of [services/src/utils/validators.ts];
    - [controllers/auth.controller.ts]: the four endpoints.

    Conventions.

    - A JavaScript string is a Rocq [string]; one character stands for one
      UTF-16 code unit below 256, so [String.length] is the [.length] of the
      source.
    - A JavaScript number that the code only uses as an integer (timestamps,
      counters, access levels) is a [Z].  A number that [parseInt] or an
      arithmetic operation makes of configuration text is a double:
      [JS.number] holds the integers a double can be and [Infinity], and
      [JS.to_double] rounds as the engine does.
    - [Date.now()] is an explicit argument [now] (milliseconds, a time value:
      an integer of magnitude at most 8.64e15); one service call reads the
      clock once.  [Math.random()] draws and bcrypt salts are explicit
      arguments as well.
    - [throw new Error(msg)] is the outcome [Throw msg].
    - The two npm libraries [bcrypt] and [jsonwebtoken] are not part of the
      repository.  bcrypt is an interface ([BcryptLib]); a signed token is a
      symbolic term ([Signed payload secret]) and [jwt_verify] follows the
      checks of jsonwebtoken's [verify] (signature, [nbf], [exp]). *)

From stdpp Require Import gmap strings list.
From Stdlib Require Import ZArith Ascii String Lia.

Set Warnings "-register-all".

Open Scope Z_scope.

(* ================================================================== *)
(** * Characters and strings *)
(* ================================================================== *)

Module Chars.

Definition code (c : ascii) : Z := Z.of_N (N_of_ascii c).

Definition in_range (lo hi : Z) (c : ascii) : bool :=
  (lo <=? code c) && (code c <=? hi).

(** [[a-z]] *)
Definition is_lower (c : ascii) : bool := in_range 97 122 c.
(** [[A-Z]] *)
Definition is_upper (c : ascii) : bool := in_range 65 90 c.
(** [\d] *)
Definition is_digit (c : ascii) : bool := in_range 48 57 c.
(** [[@$!%*?&]] *)
Definition is_special (c : ascii) : bool :=
  existsb (Ascii.eqb c) ["@"; "$"; "!"; "%"; "*"; "?"; "&"]%char.
(** [[A-Za-z\d@$!%*?&]] *)
Definition is_allowed (c : ascii) : bool :=
  is_upper c || is_lower c || is_digit c || is_special c.
(** The line terminators that [.] refuses (LF and CR; U+2028 and U+2029
    are outside the modelled code units). *)
Definition is_line_terminator (c : ascii) : bool :=
  (code c =? 10) || (code c =? 13).
(** [[dhms]] *)
Definition is_unit (c : ascii) : bool :=
  existsb (Ascii.eqb c) ["d"; "h"; "m"; "s"]%char.

(** [/[cls]/.test(s)]: some character of [s] is in the class. *)
Fixpoint contains (cls : ascii -> bool) (s : string) : bool :=
  match s with
  | EmptyString => false
  | String c s' => cls c || contains cls s'
  end.

(** Every character of [s] is in the class. *)
Fixpoint all_in (cls : ascii -> bool) (s : string) : bool :=
  match s with
  | EmptyString => true
  | String c s' => cls c && all_in cls s'
  end.

(** The lookahead body [.*[cls]] tried at the start of [s]: [.] consumes
    any character but a line terminator, then one character of the class
    follows. *)
Fixpoint dotstar_then (cls : ascii -> bool) (s : string) : bool :=
  match s with
  | EmptyString => false
  | String c s' =>
      cls c || (negb (is_line_terminator c) && dotstar_then cls s')
  end.

(** JavaScript truthiness of a string: [!s] holds exactly for [""]. *)
Definition is_empty (s : string) : bool :=
  match s with EmptyString => true | _ => false end.

End Chars.

(* ================================================================== *)
(** * JavaScript values *)
(* ================================================================== *)

Module JS.

(** The values that flow through the core: [undefined], [null], numbers,
    strings and plain objects.  An object keeps its own properties in
    insertion order. *)
Inductive value : Type :=
| VUndef
| VNull
| VNum (n : Z)
| VStr (s : string)
| VObj (fields : list (string * value)).

Definition object := list (string * value).

(** [o[k]] for an own property; [undefined] when absent. *)
Fixpoint lookup_field (k : string) (o : object) : value :=
  match o with
  | [] => VUndef
  | (k', v) :: o' => if String.eqb k k' then v else lookup_field k o'
  end.

(** [v.k] on a truthy value: the own property of an object, [undefined]
    on a number or a string.  (Reading a property of [undefined] or [null]
    throws; the code reads [req.user.k] only behind its [!req.user]
    guard.) *)
Definition get (k : string) (v : value) : value :=
  match v with
  | VObj o => lookup_field k o
  | _ => VUndef
  end.

(** [const { k: _, ...rest } = o]: the own properties but [k]. *)
Fixpoint omit (k : string) (o : object) : object :=
  match o with
  | [] => []
  | (k', v) :: o' =>
      if String.eqb k k' then omit k o' else (k', v) :: omit k o'
  end.

(** [!!v] *)
Definition truthy (v : value) : bool :=
  match v with
  | VUndef => false
  | VNull => false
  | VNum n => negb (n =? 0)
  | VStr s => negb (Chars.is_empty s)
  | VObj _ => true
  end.

(** [JSON.parse(JSON.stringify(v))] on the modelled values: a property
    whose value is [undefined] is dropped, at every depth; [null] stays. *)
Fixpoint json (v : value) : value :=
  match v with
  | VObj o =>
      VObj ((fix go (o : object) : object :=
               match o with
               | [] => []
               | (k, VUndef) :: o' => go o'
               | (k, w) :: o' => (k, json w) :: go o'
               end) o)
  | _ => v
  end.

Definition json_object (o : object) : object :=
  match json (VObj o) with
  | VObj o' => o'
  | _ => []
  end.

(** Some object reachable from [v] has an own property named [k]. *)
Fixpoint has_key (k : string) (v : value) : bool :=
  match v with
  | VObj o =>
      (fix go (o : object) : bool :=
         match o with
         | [] => false
         | (k', w) :: o' => String.eqb k k' || has_key k w || go o'
         end) o
  | _ => false
  end.

(** A double that is an integer, or [Infinity].  The numbers the token
    service computes (a parsed magnitude, its product with a positive
    multiplier, its sum with a clock second) are of this kind; they are
    never negative infinity or NaN. *)
Inductive number : Type :=
| Finite (n : Z)
| Infinity.

(** The nearest integer with a 53-bit significand to [n >= 0], ties to
    the even significand. *)
Definition round53 (n : Z) : Z :=
  if n <? 2 ^ 53 then n
  else
    let e := Z.log2 n - 52 in
    let q := n / 2 ^ e in
    let r := n mod 2 ^ e in
    let half := 2 ^ (e - 1) in
    if (half <? r) || ((r =? half) && Z.odd q)
    then (q + 1) * 2 ^ e
    else q * 2 ^ e.

(** The double an exact integer result is rounded to: round to nearest,
    ties to even, and [Infinity] from 2^1024 on. *)
Definition to_double (n : Z) : number :=
  let m := round53 (Z.abs n) in
  if 2 ^ 1024 <=? m then Infinity else Finite (Z.sgn n * m).

(** The integer a string of decimal digits spells. *)
Definition digit_value (c : ascii) : Z := Chars.code c - 48.

Fixpoint parse_digits (acc : Z) (s : string) : Z :=
  match s with
  | EmptyString => acc
  | String c s' => parse_digits (10 * acc + digit_value c) s'
  end.

(** [parseInt(s, 10)] on a string of decimal digits: the double nearest to
    the integer the digits spell. *)
Definition parseInt10 (s : string) : number := to_double (parse_digits 0 s).

(** [x * k] for a positive integer [k]. *)
Definition mul (x : number) (k : Z) : number :=
  match x with
  | Finite n => to_double (n * k)
  | Infinity => Infinity
  end.

(** [a + x] for an integer [a] that a double holds exactly. *)
Definition add (a : Z) (x : number) : number :=
  match x with
  | Finite n => to_double (a + n)
  | Infinity => Infinity
  end.

(** A number as JSON carries it: [JSON.stringify] writes [Infinity] as
    [null]. *)
Definition of_number (x : number) : value :=
  match x with
  | Finite n => VNum n
  | Infinity => VNull
  end.

(** [ToNumber]: [None] stands for NaN.  A string converts when it is
    empty or made of decimal digits; the other numeric literal forms of
    JavaScript (sign, fraction, exponent, hexadecimal, blanks) are not
    modelled and no statement below depends on them. *)
Definition to_number (v : value) : option number :=
  match v with
  | VUndef => None
  | VNull => Some (Finite 0)
  | VNum n => Some (Finite n)
  | VStr s => if Chars.all_in Chars.is_digit s then Some (parseInt10 s) else None
  | VObj _ => None
  end.

(** [a < n] with a number on the right: false whenever the left operand
    converts to NaN or to [Infinity]. *)
Definition lt_number (a : value) (n : Z) : bool :=
  match to_number a with
  | Some (Finite x) => x <? n
  | Some Infinity => false
  | None => false
  end.

End JS.

(** An integer literal where a [JS.number] is expected is that integer. *)
Coercion JS.Finite : Z >-> JS.number.

(** [throw new Error(msg)] against a normal return. *)
Inductive outcome (A : Type) : Type :=
| Ok (a : A)
| Throw (msg : string).
Arguments Ok {A} a.
Arguments Throw {A} msg.

Definition is_throw {A : Type} (r : outcome A) : bool :=
  match r with Ok _ => false | Throw _ => true end.

(* ================================================================== *)
(** * bcrypt.service.ts *)
(* ================================================================== *)

(** The [bcrypt] package: [hash(data, rounds)] with the salt it draws made
    explicit, and [compare(data, encrypted)]. *)
Class BcryptLib : Type := {
  bcrypt_hash : string -> Z -> string -> string;
  bcrypt_compare : string -> string -> bool
}.

(** The JavaScript engine, as far as [register] meets it: the message of
    the error it raises at line 60 of auth.service.ts (see
    [AuthService.register]).  No statement depends on its wording. *)
Class Engine : Type := {
  line60_error : string
}.

Module BcryptService.

Definition saltRounds : Z := 10.
Definition minPasswordLength : Z := 12.

(** [/^(?=.*[a-z])(?=.*[A-Z])(?=.*\d)(?=.*[@$!%*?&])[A-Za-z\d@$!%*?&]+$/.test(s)]:
    four lookaheads at position 0, then one or more allowed characters up
    to the end of the input. *)
Definition passwordRegex_test (s : string) : bool :=
  Chars.dotstar_then Chars.is_lower s
  && Chars.dotstar_then Chars.is_upper s
  && Chars.dotstar_then Chars.is_digit s
  && Chars.dotstar_then Chars.is_special s
  && negb (Chars.is_empty s)
  && Chars.all_in Chars.is_allowed s.

Definition msg_length : string :=
  "Password must be at least 12 characters long".
Definition msg_lower : string :=
  "Password must contain at least one lowercase letter".
Definition msg_upper : string :=
  "Password must contain at least one uppercase letter".
Definition msg_digit : string :=
  "Password must contain at least one number".
Definition msg_special : string :=
  "Password must contain at least one special character (@$!%*?&)".

Record validation : Type := { valid : bool; errors : list string }.

(** [if (cond) errors.push(msg)] *)
Definition push_if (cond : bool) (msg : string) (errors : list string)
  : list string :=
  if cond then errors ++ [msg] else errors.

Definition validatePassword (password : string) : validation :=
  let errors := [] in
  let errors :=
    push_if (Z.of_nat (String.length password) <? minPasswordLength)
            msg_length errors in
  let errors :=
    if negb (passwordRegex_test password) then
      let errors :=
        push_if (negb (Chars.contains Chars.is_lower password)) msg_lower errors in
      let errors :=
        push_if (negb (Chars.contains Chars.is_upper password)) msg_upper errors in
      let errors :=
        push_if (negb (Chars.contains Chars.is_digit password)) msg_digit errors in
      push_if (negb (Chars.contains Chars.is_special password)) msg_special errors
    else errors in
  {| valid := Nat.eqb (List.length errors) 0; errors := errors |}.

(** [errors.join(', ')] *)
Fixpoint join (sep : string) (l : list string) : string :=
  match l with
  | [] => ""
  | [x] => x
  | x :: l' => x ++ sep ++ join sep l'
  end.

(** [hashPassword]: the policy first, then the library.  The library call
    is total in the model, so the [catch] around it is never entered. *)
Definition hashPassword `{BcryptLib} (password salt : string) : outcome string :=
  let validation := validatePassword password in
  if negb (valid validation) then
    Throw ("Invalid password: " ++ join ", " (errors validation))
  else Ok (bcrypt_hash password saltRounds salt).

Definition comparePassword `{BcryptLib} (plainPassword hashedPassword : string)
  : outcome bool :=
  Ok (bcrypt_compare plainPassword hashedPassword).

(** The five rules of the policy, as the documentation of
    [validatePassword] lists them. *)
Inductive rule : Type :=
| MinLength | HasLower | HasUpper | HasDigit | HasSpecial.

Definition all_rules : list rule :=
  [MinLength; HasLower; HasUpper; HasDigit; HasSpecial].

Definition rule_message (r : rule) : string :=
  match r with
  | MinLength => msg_length
  | HasLower => msg_lower
  | HasUpper => msg_upper
  | HasDigit => msg_digit
  | HasSpecial => msg_special
  end.

(** [violates p r]: password [p] breaks rule [r], read off the policy
    (minimum 12 characters; one lowercase letter; one uppercase letter;
    one number; one character of [@$!%*?&]). *)
Definition violates (p : string) (r : rule) : bool :=
  match r with
  | MinLength => negb (12 <=? Z.of_nat (String.length p))
  | HasLower => negb (Chars.contains Chars.is_lower p)
  | HasUpper => negb (Chars.contains Chars.is_upper p)
  | HasDigit => negb (Chars.contains Chars.is_digit p)
  | HasSpecial => negb (Chars.contains Chars.is_special p)
  end.

End BcryptService.

(* ================================================================== *)
(** * jwt.service.ts *)
(* ================================================================== *)

Module JWTService.

(** A bearer string: either a token that [jwt.sign] built over a payload
    with a secret (HS256), or any other text. *)
Inductive token : Type :=
| Signed (payload : JS.object) (secret : string)
| Opaque (text : string).

(** [jwt.sign(payload, secret, {algorithm: 'HS256'})]: the payload goes
    through JSON. *)
Definition jwt_sign (payload : JS.object) (secret : string) : token :=
  Signed (JS.json_object payload) secret.

(** jsonwebtoken's claim checks against the clock (seconds): a present
    claim must be a number; [nbf] must not lie ahead; the token is expired
    as soon as [clock >= exp]. *)
Definition nbf_ok (payload : JS.object) (clock : Z) : bool :=
  match JS.lookup_field "nbf" payload with
  | JS.VUndef => true
  | JS.VNum n => n <=? clock
  | _ => false
  end.

Definition exp_ok (payload : JS.object) (clock : Z) : bool :=
  match JS.lookup_field "exp" payload with
  | JS.VUndef => true
  | JS.VNum e => clock <? e
  | _ => false
  end.

(** [jwt.verify(token, secret, {algorithms: ['HS256']})]; [None] stands
    for a thrown verification error. *)
Definition jwt_verify (t : token) (secret : string) (now : Z)
  : option JS.object :=
  match t with
  | Opaque _ => None
  | Signed payload key =>
      if String.eqb key secret
         && nbf_ok payload (now / 1000)
         && exp_ok payload (now / 1000)
      then Some payload
      else None
  end.

(** The four readonly fields of the service. *)
Record config : Type := {
  jwtSecret : string;
  refreshSecret : string;
  jwtExpire : string;
  refreshExpire : string
}.

(** [process.env.X || fallback] *)
Definition env_or (x : option string) (fallback : string) : string :=
  match x with
  | Some s => if Chars.is_empty s then fallback else s
  | None => fallback
  end.

Definition from_env (JWT_SECRET REFRESH_TOKEN_SECRET JWT_EXPIRE
                     REFRESH_TOKEN_EXPIRE : option string) : config :=
  {| jwtSecret := env_or JWT_SECRET "secret-key-change-me";
     refreshSecret := env_or REFRESH_TOKEN_SECRET "refresh-key-change-me";
     jwtExpire := env_or JWT_EXPIRE "24h";
     refreshExpire := env_or REFRESH_TOKEN_EXPIRE "7d" |}.

Definition default_config : config := from_env None None None None.

(** [(\d+)([dhms])] tried at the start of [s]: the digit group is greedy
    and gives characters back until a unit letter follows.  The result is
    the pair of captures. *)
Fixpoint match_here (s : string) : option (string * ascii) :=
  match s with
  | EmptyString => None
  | String c s' =>
      if Chars.is_digit c then
        match match_here s' with
        | Some (value, unit) => Some (String c value, unit)
        | None =>
            match s' with
            | String u _ =>
                if Chars.is_unit u then Some (String c EmptyString, u)
                else None
            | EmptyString => None
            end
        end
      else None
  end.

(** [timeStr.match(/(\d+)([dhms])/)]: the leftmost start position at which
    the pattern matches. *)
Fixpoint regex_match (s : string) : option (string * ascii) :=
  match match_here s with
  | Some m => Some m
  | None =>
      match s with
      | EmptyString => None
      | String _ s' => regex_match s'
      end
  end.

Definition multipliers : list (ascii * Z) :=
  [("s", 1); ("m", 60); ("h", 3600); ("d", 86400)]%char.

Fixpoint multiplier_of (unit : ascii) (table : list (ascii * Z)) : option Z :=
  match table with
  | [] => None
  | (u, n) :: table' =>
      if Ascii.eqb unit u then Some n else multiplier_of unit table'
  end.

(** [x || 86400] on a table entry: [undefined] and [0] are falsy. *)
Definition or_default (x : option Z) : Z :=
  match x with
  | Some n => if n =? 0 then 86400 else n
  | None => 86400
  end.

Definition getExpirySeconds (timeStr : string) : JS.number :=
  match regex_match timeStr with
  | None => 86400
  | Some (value, unit) =>
      let num := JS.parseInt10 value in
      JS.mul num (or_default (multiplier_of unit multipliers))
  end.

(** The payload literals of the two generators.  [exp] is the double
    [Math.floor(Date.now() / 1000) + getExpirySeconds(...)]; as the payload
    only goes to [jwt.sign], it is written here as JSON carries it
    ([JS.of_number]: an infinite [exp] becomes [null]). *)
Definition generateAccessToken (cfg : config) (user : JS.object) (now : Z)
  : token :=
  let payload :=
    [("userId", JS.lookup_field "id" user);
     ("email", JS.lookup_field "email" user);
     ("role", JS.lookup_field "role" user);
     ("iat", JS.VNum (now / 1000));
     ("exp", JS.of_number
               (JS.add (now / 1000) (getExpirySeconds (jwtExpire cfg))))] in
  jwt_sign payload (jwtSecret cfg).

Definition generateRefreshToken (cfg : config) (userId : JS.value) (now : Z)
  : token :=
  let payload :=
    [("userId", userId);
     ("type", JS.VStr "refresh");
     ("iat", JS.VNum (now / 1000));
     ("exp", JS.of_number
               (JS.add (now / 1000) (getExpirySeconds (refreshExpire cfg))))] in
  jwt_sign payload (refreshSecret cfg).

(** [null] is [None]. *)
Definition verifyAccessToken (cfg : config) (t : token) (now : Z)
  : option JS.object :=
  match jwt_verify t (jwtSecret cfg) now with
  | Some payload => Some payload
  | None => None
  end.

Definition verifyRefreshToken (cfg : config) (t : token) (now : Z)
  : option JS.object :=
  match jwt_verify t (refreshSecret cfg) now with
  | Some payload => Some [("userId", JS.lookup_field "userId" payload)]
  | None => None
  end.

(** The object [login] and [refreshAccessToken] hand to
    [generateAccessToken]: the subject's id, email, role and access
    level. *)
Definition subject_claims (id email role : string) (accessLevel : Z)
  : JS.object :=
  [("id", JS.VStr id);
   ("email", JS.VStr email);
   ("role", JS.VStr role);
   ("accessLevel", JS.VNum accessLevel)].

(** The payload a bearer string carries, if it is a signed token. *)
Definition payload_of (t : token) : JS.object :=
  match t with
  | Signed payload _ => payload
  | Opaque _ => []
  end.

(** The [Authorization] header, when present, as its segments between
    single spaces ([authHeader.split(' ')]); the scheme keyword is the
    segment [Opaque "Bearer"]. *)
Definition header : Type := option (list token).

Definition extractTokenFromHeader (authHeader : header) : option token :=
  match authHeader with
  | None => None
  | Some parts =>
      match parts with
      | [Opaque scheme; t] =>
          if String.eqb scheme "Bearer" then Some t else None
      | _ => None
      end
  end.

(** Spec-side reading of "a numeric magnitude with a single unit letter
    can be extracted": somewhere in the string a decimal digit is
    directly followed by one of [s], [m], [h], [d]. *)
Fixpoint has_magnitude_and_unit (s : string) : bool :=
  match s with
  | String c ((String u _) as s') =>
      (Chars.is_digit c && Chars.is_unit u) || has_magnitude_and_unit s'
  | _ => false
  end.

End JWTService.

(* ================================================================== *)
(** * auth.middleware.ts *)
(* ================================================================== *)

Module Middleware.

(** The part of an Express request the gates read and write. *)
Record request : Type := {
  authorization : JWTService.header;
  user : JS.value
}.

(** What a middleware does with the request: answer with a status and an
    error text, or call [next()]. *)
Inductive response : Type :=
| Respond (status : Z) (error : string)
| Next.

(** [!token] on the extracted bearer string. *)
Definition token_missing (t : option JWTService.token) : bool :=
  match t with
  | None => true
  | Some (JWTService.Opaque text) => Chars.is_empty text
  | Some (JWTService.Signed _ _) => false
  end.

Definition authMiddleware (cfg : JWTService.config) (req : request) (now : Z)
  : request * response :=
  let token := JWTService.extractTokenFromHeader (authorization req) in
  if token_missing token then (req, Respond 401 "No token provided")
  else
    match token with
    | None => (req, Respond 401 "No token provided")
    | Some t =>
        match JWTService.verifyAccessToken cfg t now with
        | None => (req, Respond 401 "Invalid token")
        | Some decoded =>
            ({| authorization := authorization req;
                user := JS.VObj [("id", JS.lookup_field "id" decoded);
                                 ("email", JS.lookup_field "email" decoded);
                                 ("role", JS.lookup_field "role" decoded);
                                 ("accessLevel",
                                  JS.lookup_field "accessLevel" decoded)] |},
             Next)
        end
    end.

(** [requiredRoles.includes(v)] for an array of role names. *)
Definition includes (requiredRoles : list string) (v : JS.value) : bool :=
  match v with
  | JS.VStr r => existsb (String.eqb r) requiredRoles
  | _ => false
  end.

Definition roleMiddleware (requiredRoles : list string) (req : request)
  : response :=
  if negb (JS.truthy (user req)) then Respond 401 "User not authenticated"
  else if negb (includes requiredRoles (JS.get "role" (user req)))
       then Respond 403 "Insufficient permissions"
       else Next.

Definition accessLevelMiddleware (requiredLevel : Z) (req : request)
  : response :=
  if negb (JS.truthy (user req)) then Respond 401 "User not authenticated"
  else if JS.lt_number (JS.get "accessLevel" (user req)) requiredLevel
       then Respond 403 "Insufficient access level"
       else Next.

End Middleware.

Module RateLimiter.

(** One entry of [loginAttempts]. *)
Record attempt : Type := { count : Z; timestamp : Z }.

Definition maxAttempts : Z := 5.
Definition lockoutDuration : Z := 15 * 60 * 1000.

(** [isLocked] returns its answer and the map it leaves behind (an expired
    entry is deleted on the way). *)
Definition isLocked (now : Z) (identifier : string)
           (loginAttempts : gmap string attempt)
  : bool * gmap string attempt :=
  match loginAttempts !! identifier with
  | None => (false, loginAttempts)
  | Some record =>
      let timeSinceLastAttempt := now - timestamp record in
      if lockoutDuration <? timeSinceLastAttempt
      then (false, delete identifier loginAttempts)
      else (maxAttempts <=? count record, loginAttempts)
  end.

(** [recordAttempt]: the in-place update of the stored entry is an insert
    at the same key. *)
Definition recordAttempt (now : Z) (identifier : string)
           (loginAttempts : gmap string attempt)
  : gmap string attempt :=
  match loginAttempts !! identifier with
  | None => <[identifier := {| count := 1; timestamp := now |}]> loginAttempts
  | Some record =>
      let timeSinceLastAttempt := now - timestamp record in
      if lockoutDuration <? timeSinceLastAttempt
      then <[identifier := {| count := 1; timestamp := now |}]> loginAttempts
      else <[identifier := {| count := count record + 1; timestamp := now |}]>
             loginAttempts
  end.

Definition resetAttempts (identifier : string)
           (loginAttempts : gmap string attempt)
  : gmap string attempt :=
  delete identifier loginAttempts.

(** [recordAttempt] called once at each of the given times, in order. *)
Fixpoint recordAttempts (times : list Z) (identifier : string)
         (loginAttempts : gmap string attempt) : gmap string attempt :=
  match times with
  | [] => loginAttempts
  | t :: times' =>
      recordAttempts times' identifier (recordAttempt t identifier loginAttempts)
  end.

(** Every call of the list comes no later than [lockoutDuration] after
    the time [prev] of the call before it. *)
Fixpoint within_window (prev : Z) (times : list Z) : bool :=
  match times with
  | [] => true
  | t :: times' => (t - prev <=? lockoutDuration) && within_window t times'
  end.

End RateLimiter.

(* ================================================================== *)
(** * auth.service.ts *)
(* ================================================================== *)

Module AuthService.

(** A value of the map [users], typed as [User & { password: string }]. *)
Record stored_user : Type := {
  id : string;
  email : string;
  name : string;
  role : string;
  accessLevel : Z;
  createdAt : Z;
  password : string
}.

(** The stored record as the JavaScript object it is, own properties in
    the order of the literal. *)
Definition to_object (u : stored_user) : JS.object :=
  [("id", JS.VStr (id u));
   ("email", JS.VStr (email u));
   ("name", JS.VStr (name u));
   ("role", JS.VStr (role u));
   ("accessLevel", JS.VNum (accessLevel u));
   ("createdAt", JS.VNum (createdAt u));
   ("password", JS.VStr (password u))].

(** [const { password: _, ...userWithoutPassword } = user] *)
Definition userWithoutPassword (u : stored_user) : JS.value :=
  JS.VObj (JS.omit "password" (to_object u)).

(** The [Map] [users]: keys in insertion order, one entry per key. *)
Definition user_map : Type := list (string * stored_user).

Fixpoint map_get (k : string) (m : user_map) : option stored_user :=
  match m with
  | [] => None
  | (k', u) :: m' => if String.eqb k k' then Some u else map_get k m'
  end.

Definition map_has (k : string) (m : user_map) : bool :=
  match map_get k m with Some _ => true | None => false end.

(** [users.get(v)] with an arbitrary value as key: only a string can be
    equal to a key of the map. *)
Definition map_get_value (v : JS.value) (m : user_map) : option stored_user :=
  match v with
  | JS.VStr k => map_get k m
  | _ => None
  end.

(** [user.id === userId] *)
Definition id_is (userId : JS.value) (u : stored_user) : bool :=
  match userId with
  | JS.VStr s => String.eqb (id u) s
  | _ => false
  end.

(** The first entry, in iteration order, whose user satisfies [p]. *)
Fixpoint find_user (p : stored_user -> bool) (m : user_map)
  : option stored_user :=
  match m with
  | [] => None
  | (_, u) :: m' => if p u then Some u else find_user p m'
  end.

(** The first entry whose user satisfies [p] is replaced by [f] of it;
    the result carries the updated user. *)
Fixpoint update_first (p : stored_user -> bool)
         (f : stored_user -> stored_user) (m : user_map)
  : option (stored_user * user_map) :=
  match m with
  | [] => None
  | (k, u) :: m' =>
      if p u then Some (f u, (k, f u) :: m')
      else
        match update_first p f m' with
        | Some (u', m'') => Some (u', (k, u) :: m'')
        | None => None
        end
  end.

Record RegisterRequest : Type := {
  reg_email : string;
  reg_password : string;
  reg_name : string;
  reg_role : option string
}.

Record LoginRequest : Type := {
  login_email : string;
  login_password : string
}.

Record LoginResponse : Type := {
  accessToken : JWTService.token;
  refreshToken : JWTService.token;
  user : JS.value
}.

(** The module state: the map [users] and the rate limiter's map. *)
Record state : Type := {
  users : user_map;
  loginAttempts : gmap string RateLimiter.attempt
}.

Definition initial : state := {| users := []; loginAttempts := ∅ |}.

(** The collaborator calls [login] makes, in the order it makes them. *)
Inductive call : Type :=
| CallIsLocked (identifier : string)
| CallUsersGet (key : string)
| CallComparePassword (plain hashed : string)
| CallRecordAttempt (identifier : string)
| CallResetAttempts (identifier : string)
| CallGenerateAccessToken
| CallGenerateRefreshToken.

Definition touches_credentials (c : call) : bool :=
  match c with
  | CallUsersGet _ | CallComparePassword _ _ => true
  | _ => false
  end.

Definition records_failure (c : call) : bool :=
  match c with
  | CallRecordAttempt _ => true
  | _ => false
  end.

Definition msg_required_register : string :=
  "Email, password, and name are required".
Definition msg_exists : string := "User already exists".
Definition msg_required_login : string := "Email and password are required".
Definition msg_locked : string :=
  "Account locked due to too many failed login attempts. Try again in 15 minutes.".
Definition msg_invalid_credentials : string := "Invalid email or password".
Definition msg_invalid_refresh : string := "Invalid refresh token".
Definition msg_not_found : string := "User not found".

Section Service.

Context `{BcryptLib} {engine : Engine}.
Variable cfg : JWTService.config.

(** [register], as the source has it.  After the three checks and the
    hash, lines 56-64 are to build the object of the new user.  Line 60 of
    the source reads [role: request.role || UserRole.USU] followed by the
    bytes e2 88 9a c3 85 and [RIO]: where the enum of types/auth.ts has one
    letter, the text has U+221A and U+00C5, and U+221A cannot be part of an
    identifier.  The text is not the member access the enum would need, so
    the object is never built: a call that gets this far ends in the
    engine's error ([line60_error]), and [users.set] (line 67) and the
    return (lines 70-71) are not reached.  As nothing is written, the
    [await] between [users.has] and [users.set] has no write to separate
    from the check.

    [rnd_id] is the string [Math.random().toString(36).substr(2, 9)]
    evaluates to, [salt] the draw of [bcrypt.hash]; neither they nor [now]
    reach a result. *)
Definition register (request : RegisterRequest) (rnd_id salt : string)
           (now : Z) (st : state) : outcome JS.value * state :=
  if Chars.is_empty (reg_email request)
     || Chars.is_empty (reg_password request)
     || Chars.is_empty (reg_name request)
  then (Throw msg_required_register, st)
  else if map_has (reg_email request) (users st)
  then (Throw msg_exists, st)
  else
    match BcryptService.hashPassword (reg_password request) salt with
    | Throw msg => (Throw msg, st)
    | Ok hashedPassword => (Throw line60_error, st)
    end.

Definition login (request : LoginRequest) (now : Z) (st : state)
  : outcome LoginResponse * state * list call :=
  let email_ := login_email request in
  if Chars.is_empty email_ || Chars.is_empty (login_password request)
  then (Throw msg_required_login, st, [])
  else
    let '(locked, attempts) :=
      RateLimiter.isLocked now email_ (loginAttempts st) in
    if locked
    then (Throw msg_locked,
          {| users := users st; loginAttempts := attempts |},
          [CallIsLocked email_])
    else
      match map_get email_ (users st) with
      | None =>
          (Throw msg_invalid_credentials,
           {| users := users st;
              loginAttempts := RateLimiter.recordAttempt now email_ attempts |},
           [CallIsLocked email_; CallUsersGet email_;
            CallRecordAttempt email_])
      | Some user =>
          match BcryptService.comparePassword
                  (login_password request) (password user) with
          | Throw msg =>
              (Throw msg,
               {| users := users st; loginAttempts := attempts |},
               [CallIsLocked email_; CallUsersGet email_;
                CallComparePassword (login_password request) (password user)])
          | Ok false =>
              (Throw msg_invalid_credentials,
               {| users := users st;
                  loginAttempts :=
                    RateLimiter.recordAttempt now email_ attempts |},
               [CallIsLocked email_; CallUsersGet email_;
                CallComparePassword (login_password request) (password user);
                CallRecordAttempt email_])
          | Ok true =>
              let accessToken :=
                JWTService.generateAccessToken cfg
                  [("id", JS.VStr (id user));
                   ("email", JS.VStr (email user));
                   ("role", JS.VStr (role user));
                   ("accessLevel", JS.VNum (accessLevel user))]
                  now in
              let refreshToken :=
                JWTService.generateRefreshToken cfg
                  (JS.VObj [("id", JS.VStr (id user));
                            ("email", JS.VStr (email user))])
                  now in
              (Ok {| accessToken := accessToken;
                     refreshToken := refreshToken;
                     user := JS.VObj [("id", JS.VStr (id user));
                                      ("email", JS.VStr (email user));
                                      ("role", JS.VStr (role user));
                                      ("accessLevel",
                                       JS.VNum (accessLevel user))] |},
               {| users := users st;
                  loginAttempts :=
                    RateLimiter.resetAttempts email_ attempts |},
               [CallIsLocked email_; CallUsersGet email_;
                CallComparePassword (login_password request) (password user);
                CallResetAttempts email_;
                CallGenerateAccessToken; CallGenerateRefreshToken])
          end
      end.

(** The result object [{ accessToken }] is its one field. *)
Definition refreshAccessToken (refreshToken : JWTService.token) (now : Z)
           (st : state) : outcome JWTService.token :=
  match JWTService.verifyRefreshToken cfg refreshToken now with
  | None => Throw msg_invalid_refresh
  | Some decoded =>
      match map_get_value (JS.lookup_field "email" decoded) (users st) with
      | None => Throw msg_not_found
      | Some user =>
          Ok (JWTService.generateAccessToken cfg
                [("id", JS.VStr (id user));
                 ("email", JS.VStr (email user));
                 ("role", JS.VStr (role user));
                 ("accessLevel", JS.VNum (accessLevel user))]
                now)
      end
  end.

(** The [n] requests of a session, each with the time it is served at,
    run one after the other; the outcomes come back in order. *)
Fixpoint logins (requests : list (LoginRequest * Z)) (st : state)
  : list (outcome LoginResponse) * state :=
  match requests with
  | [] => ([], st)
  | (request, now) :: requests' =>
      let '(r, st', _) := login request now st in
      let '(rs, st'') := logins requests' st' in
      (r :: rs, st'')
  end.

End Service.

Definition getUserById (userId : JS.value) (st : state) : JS.value :=
  match find_user (id_is userId) (users st) with
  | Some user => userWithoutPassword user
  | None => JS.VUndef
  end.

Definition set_accessLevel (a : Z) (u : stored_user) : stored_user :=
  {| id := id u; email := email u; name := name u; role := role u;
     accessLevel := a; createdAt := createdAt u; password := password u |}.

Definition set_role (r : string) (u : stored_user) : stored_user :=
  {| id := id u; email := email u; name := name u; role := r;
     accessLevel := accessLevel u; createdAt := createdAt u;
     password := password u |}.

Definition updateUserAccessLevel (userId : JS.value) (accessLevel : Z)
           (st : state) : outcome JS.value * state :=
  match update_first (id_is userId) (set_accessLevel accessLevel) (users st) with
  | Some (user, users') =>
      (Ok (userWithoutPassword user),
       {| users := users'; loginAttempts := loginAttempts st |})
  | None => (Throw msg_not_found, st)
  end.

Definition updateUserRole (userId : JS.value) (role : string) (st : state)
  : outcome JS.value * state :=
  match update_first (id_is userId) (set_role role) (users st) with
  | Some (user, users') =>
      (Ok (userWithoutPassword user),
       {| users := users'; loginAttempts := loginAttempts st |})
  | None => (Throw msg_not_found, st)
  end.

(** A password property anywhere in what [login] hands back: in the user
    summary or in the payload of either token. *)
Definition token_has_key (k : string) (t : JWTService.token) : bool :=
  match t with
  | JWTService.Signed payload _ => JS.has_key k (JS.VObj payload)
  | JWTService.Opaque _ => false
  end.

Definition login_response_has_key (k : string) (r : LoginResponse) : bool :=
  JS.has_key k (user r)
  || token_has_key k (accessToken r)
  || token_has_key k (refreshToken r).

(** The same for an outcome: a thrown error is a message, not a
    structure. *)
Definition outcome_has_key {A : Type} (has : A -> bool) (r : outcome A)
  : bool :=
  match r with
  | Ok a => has a
  | Throw _ => false
  end.

(** Login requests for one email, one per password tried, each with the
    time it is served at. *)
Definition attempts_for (email : string) (tries : list (string * Z))
  : list (LoginRequest * Z) :=
  map (fun try => ({| login_email := email; login_password := fst try |},
                   snd try)) tries.

End AuthService.

(** A reference implementation of the [bcrypt] interface for closed
    examples: the digest keeps the salt and the data apart by a marker. *)
Definition reference_bcrypt : BcryptLib :=
  {| bcrypt_hash := fun data _ salt => (salt ++ "$" ++ data)%string;
     bcrypt_compare := fun data encrypted =>
       match index 0 "$" encrypted with
       | Some n =>
           String.eqb (substring (S n) (String.length encrypted - S n) encrypted)
                      data
       | None => false
       end |}.

(** An engine for closed examples; the text stands for whatever the engine
    reports. *)
Definition reference_engine : Engine :=
  {| line60_error := "Invalid or unexpected token" |}.

(** The scenario of the specification: Ana, her registration request and
    her account, under the default configuration. *)
Module Scenario.

Definition cfg : JWTService.config := JWTService.default_config.

Definition ana : AuthService.RegisterRequest :=
  {| AuthService.reg_email := "a@x.com";
     AuthService.reg_password := "Str0ng!Pass123";
     AuthService.reg_name := "Ana";
     AuthService.reg_role := None |}.

(** Ana's record as the literal of [register] describes it, and a store
    that holds it: the map [users] stands in for a database (line 6 of
    auth.service.ts), and this is such a database with one user. *)
Definition ana_record : AuthService.stored_user :=
  {| AuthService.id := "k3j9x0q2m";
     AuthService.email := "a@x.com";
     AuthService.name := "Ana";
     AuthService.role := "USUARIO";
     AuthService.accessLevel := 1;
     AuthService.createdAt := 0;
     AuthService.password := "salt$Str0ng!Pass123" |}.

Definition stored : AuthService.state :=
  {| AuthService.users := [("a@x.com", ana_record)];
     AuthService.loginAttempts := ∅ |}.

Definition credentials (email password : string) : AuthService.LoginRequest :=
  {| AuthService.login_email := email;
     AuthService.login_password := password |}.

(** Five wrong passwords, one second apart. *)
Definition wrong_tries : list (string * Z) :=
  [("wrong", 1000); ("wrong", 2000); ("wrong", 3000); ("wrong", 4000);
   ("wrong", 5000)].

(** The state after the five failed logins. *)
Definition after_failures : AuthService.state :=
  snd (AuthService.logins (H := reference_bcrypt) cfg
         (AuthService.attempts_for "a@x.com" wrong_tries) stored).

End Scenario.

(* ================================================================== *)
(** * utils/validators.ts *)
(* ================================================================== *)

Module Validators.

Record ValidationResult : Type := { valid : bool; error : option string }.

Definition accepted : ValidationResult := {| valid := true; error := None |}.

Definition rejected (msg : string) : ValidationResult :=
  {| valid := false; error := Some msg |}.

(** [\s] on the modelled code units: TAB, LF, VT, FF, CR, SPACE and
    NO-BREAK SPACE.  [String.prototype.trim] strips the same set. *)
Definition is_space (c : ascii) : bool :=
  existsb (Z.eqb (Chars.code c)) [9; 10; 11; 12; 13; 32; 160].

(** [[^\s@]] *)
Definition is_plain (c : ascii) : bool :=
  negb (is_space c) && negb (Ascii.eqb c "@").

(** [[cls]+] followed by the rest of the pattern [k]: the group takes one
    character and then either goes on or hands over to [k]. *)
Fixpoint plus_then (cls : ascii -> bool) (k : string -> bool) (s : string)
  : bool :=
  match s with
  | EmptyString => false
  | String c s' => cls c && (plus_then cls k s' || k s')
  end.

(** One literal character followed by the rest of the pattern. *)
Definition literal_then (x : ascii) (k : string -> bool) (s : string) : bool :=
  match s with
  | EmptyString => false
  | String c s' => Ascii.eqb c x && k s'
  end.

(** [/^[^\s@]+@[^\s@]+\.[^\s@]+$/.test(s)] *)
Definition emailRegex_test (s : string) : bool :=
  plus_then is_plain
    (literal_then "@"
       (plus_then is_plain
          (literal_then "."
             (plus_then is_plain Chars.is_empty)))) s.

Definition validateEmail (email : string) : ValidationResult :=
  if Chars.is_empty email then rejected "Email is required"
  else if negb (emailRegex_test email) then rejected "Invalid email format"
  else if 254 <? Z.of_nat (String.length email) then rejected "Email is too long"
  else accepted.

(** [s.trim()], as [trimEnd] after [trimStart]. *)
Fixpoint trimStart (s : string) : string :=
  match s with
  | EmptyString => EmptyString
  | String c s' => if is_space c then trimStart s' else s
  end.

Fixpoint trimEnd (s : string) : string :=
  match s with
  | EmptyString => EmptyString
  | String c s' =>
      match trimEnd s' with
      | EmptyString => if is_space c then EmptyString else String c EmptyString
      | t => String c t
      end
  end.

Definition trim (s : string) : string := trimEnd (trimStart s).

Definition validateName (name : string) : ValidationResult :=
  if Chars.is_empty name || (Z.of_nat (String.length (trim name)) =? 0)
  then rejected "Name is required"
  else if Z.of_nat (String.length (trim name)) <? 2
  then rejected "Name must be at least 2 characters long"
  else if 100 <? Z.of_nat (String.length name)
  then rejected "Name is too long"
  else accepted.

(** [validateRequired(value, fieldName)] on the modelled values ([null] is
    not one of them): strict comparison with [undefined] and [''], so [0]
    passes. *)
Definition validateRequired (value : JS.value) (fieldName : string)
  : ValidationResult :=
  match value with
  | JS.VUndef | JS.VNull => rejected (fieldName ++ " is required")
  | JS.VStr EmptyString => rejected (fieldName ++ " is required")
  | _ => accepted
  end.

End Validators.

(* ================================================================== *)
(** * bcrypt.service.ts: [generateSecurePassword] *)
(* ================================================================== *)

Module SecurePassword.

Definition lowercase : string := "abcdefghijklmnopqrstuvwxyz".
Definition uppercase : string := "ABCDEFGHIJKLMNOPQRSTUVWXYZ".
Definition numbers : string := "0123456789".
Definition special : string := "@$!%*?&".
Definition allChars : string := (lowercase ++ uppercase ++ numbers ++ special)%string.

(** [password += alphabet[i]]; an index out of range reads [undefined],
    which [+=] spells out. *)
Definition append_at (alphabet : string) (i : nat) (password : string) : string :=
  match String.get i alphabet with
  | Some c => (password ++ String c EmptyString)%string
  | None => (password ++ "undefined")%string
  end.

(** The [for] loop: one character of [allChars] per remaining round, the
    draws taken in order (a missing draw reads as 0). *)
Fixpoint fill (rounds : nat) (draws : list nat) (password : string) : string :=
  match rounds with
  | O => password
  | S rounds' =>
      fill rounds' (List.tl draws) (append_at allChars (List.hd O draws) password)
  end.

(** The password before the shuffle.  [u], [l], [n], [s] and [draws] are
    the values of [Math.floor(Math.random() * alphabet.length)], in the
    order the code draws them. *)
Definition unshuffled (u l n s : nat) (draws : list nat) : string :=
  let password := EmptyString in
  let password := append_at uppercase u password in
  let password := append_at lowercase l password in
  let password := append_at numbers n password in
  let password := append_at special s password in
  fill (Z.to_nat BcryptService.minPasswordLength - String.length password)
       draws password.

(** [password.split('').sort(() => Math.random() - 0.5).join('')]: with a
    random comparator the order is up to the engine; what it returns is
    some rearrangement of the characters. *)
Definition generateSecurePassword (u l n s : nat) (draws : list nat)
           (result : string) : Prop :=
  Permutation (list_ascii_of_string result)
              (list_ascii_of_string (unshuffled u l n s draws)).

(** The draws are in the range [Math.floor(Math.random() * length)] has. *)
Definition in_range (u l n s : nat) (draws : list nat) : Prop :=
  (u < String.length uppercase)%nat
  /\ (l < String.length lowercase)%nat
  /\ (n < String.length numbers)%nat
  /\ (s < String.length special)%nat
  /\ Forall (fun d => (d < String.length allChars)%nat) draws
  /\ (8 <= List.length draws)%nat.

End SecurePassword.

(* ================================================================== *)
(** * The rate limiter and the service as state machines *)
(* ================================================================== *)

Module Machine.

(** A call on the rate limiter, with the time it is made at. *)
Inductive limiter_call : Type :=
| IsLocked (now : Z) (identifier : string)
| RecordAttempt (now : Z) (identifier : string)
| ResetAttempts (identifier : string).

Definition limiter_step (m : gmap string RateLimiter.attempt) (c : limiter_call)
  : gmap string RateLimiter.attempt :=
  match c with
  | IsLocked now id => snd (RateLimiter.isLocked now id m)
  | RecordAttempt now id => RateLimiter.recordAttempt now id m
  | ResetAttempts id => RateLimiter.resetAttempts id m
  end.

Definition limiter_run (calls : list limiter_call)
           (m : gmap string RateLimiter.attempt)
  : gmap string RateLimiter.attempt :=
  fold_left limiter_step calls m.

Definition call_identifier (c : limiter_call) : string :=
  match c with
  | IsLocked _ id | RecordAttempt _ id | ResetAttempts id => id
  end.

(** The number of [recordAttempt] calls for [id] among [calls]. *)
Definition records (id : string) (c : limiter_call) : bool :=
  match c with
  | RecordAttempt _ id' => String.eqb id id'
  | _ => false
  end.

Definition recorded (id : string) (calls : list limiter_call) : Z :=
  Z.of_nat (List.length (List.filter (records id) calls)).

(** A call on the authentication service, with the clock reading and the
    random draws it consumes.  Calls are run one after the other.  For the
    map [users] this loses nothing: its only writes are those of the two
    updates, whose bodies have no [await], so a call that is suspended at
    an [await] ([register] at the hash, [login] at the comparison) sees
    other calls' writes to [users] only as whole steps. *)
Inductive service_call : Type :=
| Register (request : AuthService.RegisterRequest) (rnd_id salt : string) (now : Z)
| Login (request : AuthService.LoginRequest) (now : Z)
| Refresh (refreshToken : JWTService.token) (now : Z)
| UpdateAccessLevel (userId : JS.value) (accessLevel : Z)
| UpdateRole (userId : JS.value) (role : string).

Definition service_step `{BcryptLib} `{Engine} (cfg : JWTService.config)
           (st : AuthService.state) (c : service_call) : AuthService.state :=
  match c with
  | Register request rnd_id salt now =>
      snd (AuthService.register request rnd_id salt now st)
  | Login request now => snd (fst (AuthService.login cfg request now st))
  | Refresh _ _ => st
  | UpdateAccessLevel userId accessLevel =>
      snd (AuthService.updateUserAccessLevel userId accessLevel st)
  | UpdateRole userId role => snd (AuthService.updateUserRole userId role st)
  end.

Definition service_run `{BcryptLib} `{Engine} (cfg : JWTService.config)
           (calls : list service_call) (st : AuthService.state)
  : AuthService.state :=
  fold_left (service_step cfg) calls st.


(** The entries of [m'] are those of [m], key by key, each user kept or
    replaced by its image under [f]. *)
Definition entries_updated (f : AuthService.stored_user -> AuthService.stored_user)
           (m m' : AuthService.user_map) : Prop :=
  Forall2 (fun a b => fst b = fst a /\ (snd b = snd a \/ snd b = f (snd a))) m m'.

(** [u'] is [u] up to role and access level. *)
Definition same_identity (u u' : AuthService.stored_user) : Prop :=
  AuthService.id u' = AuthService.id u
  /\ AuthService.email u' = AuthService.email u
  /\ AuthService.name u' = AuthService.name u
  /\ AuthService.createdAt u' = AuthService.createdAt u
  /\ AuthService.password u' = AuthService.password u.

End Machine.

(* ================================================================== *)
(** * controllers/auth.controller.ts *)
(* ================================================================== *)

Module AuthController.

(** The JSON bodies the controller sends. *)
Inductive body : Type :=
| Error (error : option string)      (* [{ error }] *)
| EngineError                        (* [{ error }] with a TypeError's message *)
| Errors (errors : list string)      (* [{ errors }] *)
| Registered (user : JS.value)       (* [{ message, user }] *)
| LoggedIn (response : AuthService.LoginResponse) (* [{ message, ...response }] *)
| Refreshed (accessToken : JWTService.token)      (* [{ message, accessToken }] *)
| Profile (user : JS.value).         (* [{ message, user }] *)

Record reply : Type := { status : Z; json : body }.

(** A field read off [req.body]: absent, or a string. *)
Definition field : Type := option string.

(** The string a validator that starts with [!x] treats an absent field
    like. *)
Definition text (f : field) : string :=
  match f with Some s => s | None => EmptyString end.

Definition to_value (f : field) : JS.value :=
  match f with Some s => JS.VStr s | None => JS.VUndef end.

(** [hay.includes(needle)] *)
Fixpoint includes (needle hay : string) : bool :=
  String.prefix needle hay
  || match hay with
     | EmptyString => false
     | String _ hay' => includes needle hay'
     end.

(** [register]: an absent password makes [validatePassword] read
    [undefined.length]; the [catch] turns that TypeError into a 400. *)
Definition register `{BcryptLib} `{Engine} (email password name role : field)
           (rnd_id salt : string) (now : Z) (st : AuthService.state)
  : reply * AuthService.state :=
  let emailValidation := Validators.validateEmail (text email) in
  if negb (Validators.valid emailValidation)
  then ({| status := 400; json := Error (Validators.error emailValidation) |}, st)
  else
    let nameValidation := Validators.validateName (text name) in
    if negb (Validators.valid nameValidation)
    then ({| status := 400; json := Error (Validators.error nameValidation) |}, st)
    else
      match password with
      | None => ({| status := 400; json := EngineError |}, st)
      | Some password =>
          let passwordValidation := BcryptService.validatePassword password in
          if negb (BcryptService.valid passwordValidation)
          then ({| status := 400;
                   json := Errors (BcryptService.errors passwordValidation) |}, st)
          else
            match AuthService.register
                    {| AuthService.reg_email := text email;
                       AuthService.reg_password := password;
                       AuthService.reg_name := text name;
                       AuthService.reg_role := role |}
                    rnd_id salt now st with
            | (Ok user, st') => ({| status := 201; json := Registered user |}, st')
            | (Throw msg, st') => ({| status := 400; json := Error (Some msg) |}, st')
            end
      end.

Definition login `{BcryptLib} (cfg : JWTService.config) (email password : field)
           (now : Z) (st : AuthService.state) : reply * AuthService.state :=
  let emailValidation := Validators.validateRequired (to_value email) "Email" in
  if negb (Validators.valid emailValidation)
  then ({| status := 400; json := Error (Validators.error emailValidation) |}, st)
  else
    let passwordValidation :=
      Validators.validateRequired (to_value password) "Password" in
    if negb (Validators.valid passwordValidation)
    then ({| status := 400;
             json := Error (Validators.error passwordValidation) |}, st)
    else
      match AuthService.login cfg
              {| AuthService.login_email := text email;
                 AuthService.login_password := text password |} now st with
      | (Ok response, st', _) => ({| status := 200; json := LoggedIn response |}, st')
      | (Throw msg, st', _) =>
          if includes "locked" msg
          then ({| status := 429; json := Error (Some msg) |}, st')
          else ({| status := 401; json := Error (Some msg) |}, st')
      end.

(** [refreshToken]: the body field is absent or a bearer string. *)
Definition refreshToken `{BcryptLib} (cfg : JWTService.config)
           (refreshToken : option JWTService.token) (now : Z)
           (st : AuthService.state) : reply :=
  match refreshToken with
  | None => {| status := 400; json := Error (Some "Refresh token is required") |}
  | Some t =>
      if Middleware.token_missing (Some t)
      then {| status := 400; json := Error (Some "Refresh token is required") |}
      else
        match AuthService.refreshAccessToken cfg t now st with
        | Ok accessToken => {| status := 200; json := Refreshed accessToken |}
        | Throw msg => {| status := 401; json := Error (Some msg) |}
        end
  end.

Definition getProfile (req : Middleware.request) (st : AuthService.state)
  : reply :=
  let user := Middleware.user req in
  if negb (JS.truthy user)
  then {| status := 401; json := Error (Some "User not authenticated") |}
  else
    let userProfile := AuthService.getUserById (JS.get "id" user) st in
    if negb (JS.truthy userProfile)
    then {| status := 404; json := Error (Some "User not found") |}
    else {| status := 200; json := Profile userProfile |}.

End AuthController.

(* ================================================================== *)
(** * Password policy *)
(* ================================================================== *)

Section PasswordPolicy.

Import BcryptService.

Lemma dotstar_then_contains (cls : ascii -> bool) (s : string) :
  Chars.dotstar_then cls s = true -> Chars.contains cls s = true.
Proof.
  induction s as [|c s IH]; simpl; [easy|].
  destruct (cls c); simpl; [easy|].
  rewrite andb_true_iff. intros [_ Hs]. now apply IH.
Qed.

(** When the full pattern matches, each of the four class tests
    succeeds, so skipping them loses no error. *)
Lemma passwordRegex_classes (p : string) :
  passwordRegex_test p = true ->
  Chars.contains Chars.is_lower p = true
  /\ Chars.contains Chars.is_upper p = true
  /\ Chars.contains Chars.is_digit p = true
  /\ Chars.contains Chars.is_special p = true.
Proof.
  unfold passwordRegex_test. rewrite !andb_true_iff.
  intros [[[[[Hl Hu] Hd] Hs] _] _].
  repeat split; now apply dotstar_then_contains.
Qed.

Lemma length_rule (p : string) :
  (Z.of_nat (String.length p) <? minPasswordLength) = violates p MinLength.
Proof.
  unfold violates, minPasswordLength.
  destruct (Z.ltb_spec (Z.of_nat (String.length p)) 12);
    destruct (Z.leb_spec 12 (Z.of_nat (String.length p))); simpl; lia.
Qed.

(** The error list is the list of violated rules, in the order of the
    policy, whatever the password. *)
Lemma validatePassword_errors (p : string) :
  errors (validatePassword p)
  = map rule_message (List.filter (violates p) all_rules).
Proof.
  unfold validatePassword. cbn [errors].
  rewrite length_rule.
  change (negb (Chars.contains Chars.is_lower p)) with (violates p HasLower).
  change (negb (Chars.contains Chars.is_upper p)) with (violates p HasUpper).
  change (negb (Chars.contains Chars.is_digit p)) with (violates p HasDigit).
  change (negb (Chars.contains Chars.is_special p)) with (violates p HasSpecial).
  cbn [all_rules List.filter].
  destruct (passwordRegex_test p) eqn:Hre; cbn [negb].
  - destruct (passwordRegex_classes p Hre) as (Hl & Hu & Hd & Hs).
    assert (El : violates p HasLower = false) by (cbn; now rewrite Hl).
    assert (Eu : violates p HasUpper = false) by (cbn; now rewrite Hu).
    assert (Ed : violates p HasDigit = false) by (cbn; now rewrite Hd).
    assert (Es : violates p HasSpecial = false) by (cbn; now rewrite Hs).
    rewrite El, Eu, Ed, Es.
    destruct (violates p MinLength); reflexivity.
  - destruct (violates p MinLength), (violates p HasLower),
      (violates p HasUpper), (violates p HasDigit), (violates p HasSpecial);
      reflexivity.
Qed.

Lemma rule_message_inj (r r' : rule) :
  rule_message r = rule_message r' -> r = r'.
Proof. destruct r, r'; simpl; intros E; try reflexivity; discriminate E. Qed.

Lemma validatePassword_valid (p : string) :
  valid (validatePassword p)
  = forallb (fun r => negb (violates p r)) all_rules.
Proof.
  assert (E : valid (validatePassword p)
              = Nat.eqb (List.length (errors (validatePassword p))) 0)
    by reflexivity.
  rewrite E, validatePassword_errors, length_map.
  cbn [all_rules List.filter forallb].
  destruct (violates p MinLength), (violates p HasLower),
    (violates p HasUpper), (violates p HasDigit), (violates p HasSpecial);
    reflexivity.
Qed.

(** C8. A password shorter than 12 characters, or without a lowercase
    letter, an uppercase letter, a digit or a character of [@$!%*?&], is
    reported invalid, and the error list is exactly the violated rules:
    every violated rule is in it and no satisfied rule is. *)
Theorem validatePassword_reports_every_violation (p : string) :
  (Z.of_nat (String.length p) < 12
   \/ Chars.contains Chars.is_lower p = false
   \/ Chars.contains Chars.is_upper p = false
   \/ Chars.contains Chars.is_digit p = false
   \/ Chars.contains Chars.is_special p = false) ->
  valid (validatePassword p) = false
  /\ errors (validatePassword p)
     = map rule_message (List.filter (violates p) all_rules)
  /\ forall r : rule,
      In (rule_message r) (errors (validatePassword p))
      <-> violates p r = true.
Proof.
  intros Hbad. split; [|split].
  - rewrite validatePassword_valid. cbn [all_rules forallb violates].
    destruct Hbad as [Hlen | [Hc | [Hc | [Hc | Hc]]]].
    + destruct (Z.leb_spec 12 (Z.of_nat (String.length p))); [lia|reflexivity].
    + rewrite Hc. cbn. now rewrite andb_false_r.
    + rewrite Hc. cbn. now rewrite !andb_false_r.
    + rewrite Hc. cbn. now rewrite !andb_false_r.
    + rewrite Hc. cbn. now rewrite !andb_false_r.
  - apply validatePassword_errors.
  - intros r. rewrite validatePassword_errors, in_map_iff. split.
    + intros (r' & Hmsg & Hin). apply rule_message_inj in Hmsg. subst r'.
      apply filter_In in Hin. tauto.
    + intros Hv. exists r. split; [reflexivity|].
      apply filter_In. split; [|exact Hv].
      destruct r; cbn; tauto.
Qed.

Example validatePassword_accepts_compliant :
  validatePassword "Str0ng!Pass123" = {| valid := true; errors := [] |}.
Proof. reflexivity. Qed.

(** With every class present and the length reached, a character outside
    the allowed alphabet makes the pattern fail but no class test fail: no
    error is pushed. *)
Example validatePassword_foreign_character :
  passwordRegex_test "Str0ng!Pass#123" = false
  /\ validatePassword "Str0ng!Pass#123" = {| valid := true; errors := [] |}.
Proof. split; reflexivity. Qed.

Lemma validatePassword_reports_every_violation_witness :
  (Z.of_nat (String.length "abc1") < 12
   \/ Chars.contains Chars.is_lower "abc1" = false
   \/ Chars.contains Chars.is_upper "abc1" = false
   \/ Chars.contains Chars.is_digit "abc1" = false
   \/ Chars.contains Chars.is_special "abc1" = false)
  /\ errors (validatePassword "abc1") = [msg_length; msg_upper; msg_special].
Proof.
  assert (Hbad : Z.of_nat (String.length "abc1") < 12
   \/ Chars.contains Chars.is_lower "abc1" = false
   \/ Chars.contains Chars.is_upper "abc1" = false
   \/ Chars.contains Chars.is_digit "abc1" = false
   \/ Chars.contains Chars.is_special "abc1" = false)
    by (left; vm_compute; reflexivity).
  split; [exact Hbad|].
  destruct (validatePassword_reports_every_violation "abc1" Hbad) as (_ & E & _).
  rewrite E. reflexivity.
Defined.

End PasswordPolicy.

(* ================================================================== *)
(** * Duration parsing *)
(* ================================================================== *)

Section Durations.

Import JWTService.

Lemma has_magnitude_and_unit_cons (c u : ascii) (s : string) :
  has_magnitude_and_unit (String c (String u s))
  = (Chars.is_digit c && Chars.is_unit u) || has_magnitude_and_unit (String u s).
Proof. reflexivity. Qed.

Lemma has_magnitude_and_unit_tail (c : ascii) (s : string) :
  has_magnitude_and_unit (String c s) = false ->
  has_magnitude_and_unit s = false.
Proof.
  destruct s as [|u s]; [reflexivity|].
  rewrite has_magnitude_and_unit_cons. intros E.
  apply orb_false_iff in E. tauto.
Qed.

Lemma match_here_none (s : string) :
  has_magnitude_and_unit s = false -> match_here s = None.
Proof.
  induction s as [|c s IH]; [reflexivity|].
  intros E. cbn [match_here].
  destruct (Chars.is_digit c) eqn:Hc; [|reflexivity].
  rewrite (IH (has_magnitude_and_unit_tail c s E)).
  destruct s as [|u s]; [reflexivity|].
  rewrite has_magnitude_and_unit_cons, Hc in E.
  apply orb_false_iff in E. destruct E as [E _]. cbn [andb] in E.
  now rewrite E.
Qed.

Lemma match_here_digit_unit (c u : ascii) (s : string) :
  Chars.is_digit c = true -> Chars.is_unit u = true ->
  match_here (String c (String u s)) <> None.
Proof.
  intros Hc Hu. cbn [match_here]. rewrite Hc.
  destruct (Chars.is_digit u).
  - destruct (match_here s) as [[v w]|]; [discriminate|].
    destruct s as [|x s]; [now rewrite Hu|].
    destruct (Chars.is_unit x); now rewrite ?Hu.
  - now rewrite Hu.
Qed.

(** The pattern finds nothing exactly when no digit is directly followed
    by a unit letter. *)
Lemma regex_match_none (s : string) :
  regex_match s = None <-> has_magnitude_and_unit s = false.
Proof.
  split.
  - induction s as [|c s IH]; [reflexivity|].
    cbn [regex_match]. destruct (match_here (String c s)) eqn:Hm; [discriminate|].
    intros Hs. specialize (IH Hs).
    destruct s as [|u s]; [reflexivity|].
    rewrite has_magnitude_and_unit_cons, IH, orb_false_r.
    destruct (Chars.is_digit c) eqn:Hc; [|reflexivity].
    destruct (Chars.is_unit u) eqn:Hu; [|reflexivity].
    now destruct (match_here_digit_unit c u s Hc Hu).
  - induction s as [|c s IH]; [reflexivity|].
    intros E. cbn [regex_match]. rewrite (match_here_none _ E).
    apply IH. exact (has_magnitude_and_unit_tail c s E).
Qed.

(** [has_magnitude_and_unit] says what its name says: the string splits
    around a digit and a unit letter next to each other. *)
Lemma has_magnitude_and_unit_spec (s : string) :
  has_magnitude_and_unit s = true <->
  exists (pre : string) (d u : ascii) (post : string),
    s = (pre ++ String d (String u post))%string
    /\ Chars.is_digit d = true /\ Chars.is_unit u = true.
Proof.
  split.
  - induction s as [|c s IH]; [discriminate|].
    destruct s as [|u s]; [discriminate|].
    rewrite has_magnitude_and_unit_cons. intros E.
    apply orb_true_iff in E. destruct E as [E | E].
    + apply andb_true_iff in E. destruct E as [Hc Hu].
      exists EmptyString, c, u, s. now repeat split.
    + destruct (IH E) as (pre & d & u' & post & Hs & Hd & Hu).
      exists (String c pre), d, u', post. rewrite Hs. now repeat split.
  - intros (pre & d & u & post & Hs & Hd & Hu). subst s.
    induction pre as [|c pre IH].
    + change (has_magnitude_and_unit (String d (String u post)) = true).
      rewrite has_magnitude_and_unit_cons, Hd, Hu.
      reflexivity.
    + change (has_magnitude_and_unit
                (String c (pre ++ String d (String u post))) = true).
      destruct (pre ++ String d (String u post))%string eqn:E.
      * destruct pre; discriminate.
      * rewrite has_magnitude_and_unit_cons, IH. apply orb_true_r.
Qed.

(** C10. ["45s"], ["30m"], ["24h"] and ["7d"] parse to 45, 1800, 86400
    and 604800 seconds, and a string in which no digit is followed by a
    unit letter parses to the default of 86400 seconds. *)
Theorem getExpirySeconds_units_and_default :
  getExpirySeconds "45s" = 45
  /\ getExpirySeconds "30m" = 1800
  /\ getExpirySeconds "24h" = 86400
  /\ getExpirySeconds "7d" = 604800
  /\ forall s : string,
      has_magnitude_and_unit s = false -> getExpirySeconds s = 86400.
Proof.
  repeat split; try reflexivity.
  intros s Hs. unfold getExpirySeconds.
  apply regex_match_none in Hs. now rewrite Hs.
Qed.

Lemma getExpirySeconds_units_and_default_witness :
  has_magnitude_and_unit "one day" = false
  /\ getExpirySeconds "one day" = 86400.
Proof.
  split; [reflexivity|].
  apply (proj2 (proj2 (proj2 (proj2 getExpirySeconds_units_and_default)))).
  reflexivity.
Defined.

(** The pattern is not anchored: text around the first match is ignored,
    and only the digits next to the unit letter count. *)
Example getExpirySeconds_unanchored :
  getExpirySeconds "1.5h" = 18000
  /\ getExpirySeconds "10ms" = 600
  /\ getExpirySeconds "in 2d or so" = 172800
  /\ getExpirySeconds "15 minutes" = 86400.
Proof. repeat split; reflexivity. Qed.

End Durations.

(* ================================================================== *)
(** * Tokens *)
(* ================================================================== *)

Section Tokens.

Import JWTService.

Variable cfg : config.

(** The payload that [generateAccessToken] signs has at most the five
    properties of the literal; [JSON] drops those that are [undefined]. *)
Lemma generateAccessToken_signed (user : JS.object) (now : Z) :
  exists payload : JS.object,
    generateAccessToken cfg user now = Signed payload (jwtSecret cfg)
    /\ JS.lookup_field "accessLevel" payload = JS.VUndef
    /\ JS.lookup_field "id" payload = JS.VUndef
    /\ JS.lookup_field "type" payload = JS.VUndef
    /\ JS.lookup_field "nbf" payload = JS.VUndef
    /\ JS.lookup_field "exp" payload
       = JS.of_number (JS.add (now / 1000) (getExpirySeconds (jwtExpire cfg)))
    /\ ~ In "accessLevel" (map fst payload).
Proof.
  unfold generateAccessToken, jwt_sign. eexists. split; [reflexivity|].
  unfold JS.json_object.
  destruct (JS.lookup_field "id" user), (JS.lookup_field "email" user),
    (JS.lookup_field "role" user),
    (JS.add (now / 1000) (getExpirySeconds (jwtExpire cfg)));
    cbn; intuition discriminate.
Qed.

Lemma generateRefreshToken_signed (userId : JS.value) (now : Z) :
  exists payload : JS.object,
    generateRefreshToken cfg userId now = Signed payload (refreshSecret cfg)
    /\ JS.lookup_field "type" payload = JS.VStr "refresh"
    /\ JS.lookup_field "email" payload = JS.VUndef
    /\ JS.lookup_field "nbf" payload = JS.VUndef
    /\ JS.lookup_field "exp" payload
       = JS.of_number
           (JS.add (now / 1000) (getExpirySeconds (refreshExpire cfg))).
Proof.
  unfold generateRefreshToken, jwt_sign. eexists. split; [reflexivity|].
  unfold JS.json_object.
  destruct userId,
    (JS.add (now / 1000) (getExpirySeconds (refreshExpire cfg)));
    cbn; intuition discriminate.
Qed.

(** A token signed under another secret never verifies. *)
Lemma jwt_verify_wrong_secret (payload : JS.object) (key secret : string)
      (now : Z) :
  key <> secret -> jwt_verify (Signed payload key) secret now = None.
Proof.
  intros Hne. unfold jwt_verify.
  destruct (String.eqb_spec key secret); [contradiction|reflexivity].
Qed.

Example extractTokenFromHeader_shapes :
  extractTokenFromHeader (Some [Opaque "Bearer"; Opaque "abc.def.ghi"])
  = Some (Opaque "abc.def.ghi")
  /\ extractTokenFromHeader (Some [Opaque "Token"; Opaque "abc"]) = None
  /\ extractTokenFromHeader (Some [Opaque "Bearer"; Opaque "a"; Opaque "b"]) = None
  /\ extractTokenFromHeader None = None.
Proof. repeat split; reflexivity. Qed.

(** The token of a subject of strings, and what verifying it gives. *)
Lemma verify_issued_access_token (i e r : string) (a now now' : Z) :
  verifyAccessToken cfg (generateAccessToken cfg (subject_claims i e r a) now) now'
  = match JS.add (now / 1000) (getExpirySeconds (jwtExpire cfg)) with
    | JS.Finite exp =>
        if now' / 1000 <? exp
        then Some [("userId", JS.VStr i); ("email", JS.VStr e);
                   ("role", JS.VStr r); ("iat", JS.VNum (now / 1000));
                   ("exp", JS.VNum exp)]
        else None
    | JS.Infinity => None
    end.
Proof.
  unfold verifyAccessToken, generateAccessToken, jwt_sign, jwt_verify.
  rewrite String.eqb_refl. unfold JS.json_object, nbf_ok, exp_ok.
  destruct (JS.add (now / 1000) (getExpirySeconds (jwtExpire cfg))) as [exp|];
    cbn; [|reflexivity].
  destruct (now' / 1000 <? exp); reflexivity.
Qed.

Lemma issued_access_token_exp (i e r : string) (a now : Z) :
  JS.lookup_field "exp"
    (payload_of (generateAccessToken cfg (subject_claims i e r a) now))
  = JS.of_number (JS.add (now / 1000) (getExpirySeconds (jwtExpire cfg))).
Proof.
  unfold generateAccessToken, jwt_sign, JS.json_object. cbn [payload_of].
  destruct (JS.add (now / 1000) (getExpirySeconds (jwtExpire cfg)));
    reflexivity.
Qed.

(** C7. An access token issued at [now] for the subject [(i, e, r)], whose
    expiry claim is the number [exp], verifies at every time [now'] whose
    clock second is below [exp], and the verified claims carry the issued
    subject id, email and role; from the second [exp] on, verification
    yields null. *)
Theorem access_token_round_trip (i e r : string) (a now now' exp : Z) :
  let t := generateAccessToken cfg (subject_claims i e r a) now in
  JS.lookup_field "exp" (payload_of t) = JS.VNum exp ->
  (now' / 1000 < exp ->
   exists claims : JS.object,
     verifyAccessToken cfg t now' = Some claims
     /\ JS.lookup_field "userId" claims = JS.VStr i
     /\ JS.lookup_field "email" claims = JS.VStr e
     /\ JS.lookup_field "role" claims = JS.VStr r
     /\ JS.lookup_field "exp" claims = JS.VNum exp)
  /\ (exp <= now' / 1000 -> verifyAccessToken cfg t now' = None).
Proof.
  cbv zeta. rewrite issued_access_token_exp, verify_issued_access_token.
  destruct (JS.add (now / 1000) (getExpirySeconds (jwtExpire cfg))) as [x|];
    cbn [JS.of_number]; [|discriminate].
  intros [= ->]. split; intros Hclock.
  - destruct (Z.ltb_spec (now' / 1000) exp); [|lia].
    eexists. split; [reflexivity|]. cbn. auto.
  - destruct (Z.ltb_spec (now' / 1000) exp); [lia|reflexivity].
Qed.

(** A lifetime so long that [exp] overflows is written [null], and the
    token is refused from the start. *)
Lemma access_token_without_expiry_is_refused (i e r : string) (a now now' : Z) :
  JS.add (now / 1000) (getExpirySeconds (jwtExpire cfg)) = JS.Infinity ->
  verifyAccessToken cfg (generateAccessToken cfg (subject_claims i e r a) now) now'
  = None.
Proof. intros E. now rewrite verify_issued_access_token, E. Qed.

(** C3. A token made by [generateAccessToken] has no [accessLevel]
    property in its payload.  Hence, when [authMiddleware] lets a request
    with such a bearer token through, the [accessLevel] of the user it
    attaches is [undefined], and [accessLevelMiddleware] then calls
    [next()] for every required level: the 403 branch is never taken. *)
Theorem access_level_gate_never_rejects (user : JS.object) (now now' : Z)
        (req req' : Middleware.request) :
  Middleware.authorization req
  = Some [Opaque "Bearer"; generateAccessToken cfg user now] ->
  Middleware.authMiddleware cfg req now' = (req', Middleware.Next) ->
  ~ In "accessLevel" (map fst (payload_of (generateAccessToken cfg user now)))
  /\ JS.get "accessLevel" (Middleware.user req') = JS.VUndef
  /\ forall requiredLevel : Z,
      Middleware.accessLevelMiddleware requiredLevel req' = Middleware.Next.
Proof.
  intros Hhdr Hauth.
  destruct (generateAccessToken_signed user now)
    as (payload & Htok & Hlevel & _ & _ & _ & _ & Hkeys).
  rewrite Htok in *. cbn [payload_of]. split; [exact Hkeys|].
  unfold Middleware.authMiddleware in Hauth. rewrite Hhdr in Hauth.
  cbn [extractTokenFromHeader String.eqb Ascii.eqb Bool.eqb
       Middleware.token_missing] in Hauth.
  unfold verifyAccessToken in Hauth.
  destruct (jwt_verify (Signed payload (jwtSecret cfg)) (jwtSecret cfg) now')
    as [decoded|] eqn:Hv; [|discriminate].
  assert (decoded = payload) as ->.
  { unfold jwt_verify in Hv.
    destruct (_ && _ && _) in Hv; congruence. }
  injection Hauth as Hreq.
  assert (Hundef : JS.get "accessLevel" (Middleware.user req') = JS.VUndef)
    by (rewrite <- Hreq; cbn; exact Hlevel).
  assert (Huser : JS.truthy (Middleware.user req') = true)
    by (rewrite <- Hreq; reflexivity).
  split; [exact Hundef|].
  intros requiredLevel. unfold Middleware.accessLevelMiddleware.
  rewrite Huser, Hundef. reflexivity.
Qed.

End Tokens.

(** C2, at the failing input.  With one secret for both token classes
    (both environment variables set to the same text), an access token,
    which has no [type] property, passes [verifyRefreshToken], and a
    refresh token passes [verifyAccessToken]; and under the default
    configuration a payload without [type] that is signed with the refresh
    secret passes [verifyRefreshToken].  The claim has each of the three
    refused. *)
Theorem token_classes_confused_under_one_secret :
  let cfg := JWTService.from_env (Some "k") (Some "k") None None in
  let access := JWTService.generateAccessToken cfg
                  (JWTService.subject_claims "u1" "a@x.com" "ADMIN" 4) 0 in
  JS.lookup_field "type" (JWTService.payload_of access) = JS.VUndef
  /\ JWTService.verifyRefreshToken cfg access 1000
     = Some [("userId", JS.VStr "u1")]
  /\ JWTService.verifyAccessToken cfg
       (JWTService.generateRefreshToken cfg (JS.VStr "u1") 0) 1000
     = Some [("userId", JS.VStr "u1"); ("type", JS.VStr "refresh");
             ("iat", JS.VNum 0); ("exp", JS.VNum 604800)]
  /\ JWTService.verifyRefreshToken JWTService.default_config
       (JWTService.Signed [("userId", JS.VStr "u1")] "refresh-key-change-me") 0
     = Some [("userId", JS.VStr "u1")].
Proof. repeat split; vm_compute; reflexivity. Qed.

Lemma access_token_round_trip_witness :
  let cfg := JWTService.default_config in
  let t := JWTService.generateAccessToken cfg
             (JWTService.subject_claims "u1" "a@x.com" "ADMIN" 4) 5000 in
  JS.lookup_field "exp" (JWTService.payload_of t) = JS.VNum 86405
  /\ (5000 / 1000 < 86405
      /\ exists claims : JS.object,
          JWTService.verifyAccessToken cfg t 5000 = Some claims
          /\ JS.lookup_field "userId" claims = JS.VStr "u1"
          /\ JS.lookup_field "email" claims = JS.VStr "a@x.com"
          /\ JS.lookup_field "role" claims = JS.VStr "ADMIN"
          /\ JS.lookup_field "exp" claims = JS.VNum 86405)
  /\ (86405 <= 86405000 / 1000
      /\ JWTService.verifyAccessToken cfg t 86405000 = None).
Proof.
  cbv zeta.
  assert (Hexp : JS.lookup_field "exp"
                   (JWTService.payload_of
                      (JWTService.generateAccessToken JWTService.default_config
                         (JWTService.subject_claims "u1" "a@x.com" "ADMIN" 4)
                         5000))
                 = JS.VNum 86405)
    by (vm_compute; reflexivity).
  assert (H1 : 5000 / 1000 < 86405) by (vm_compute; reflexivity).
  assert (H2 : 86405 <= 86405000 / 1000) by (vm_compute; discriminate).
  split; [exact Hexp|]. split; split; [exact H1| |exact H2|].
  - exact (proj1 (access_token_round_trip JWTService.default_config
                    "u1" "a@x.com" "ADMIN" 4 5000 5000 86405 Hexp) H1).
  - exact (proj2 (access_token_round_trip JWTService.default_config
                    "u1" "a@x.com" "ADMIN" 4 5000 86405000 86405 Hexp) H2).
Defined.

(** A lifetime above 2^53 seconds is kept as the double next to it, and a
    lifetime of 310 digits overflows: the token then carries [exp: null]
    and does not verify even at the instant it is issued. *)
Example lifetimes_are_doubles :
  JWTService.getExpirySeconds "9007199254740993s" = 9007199254740992
  /\ JWTService.getExpirySeconds
       "1000000000000000000000000000000000000000000000000000000000000000000000000000000000000000000000000000000000000000000000000000000000000000000000000000000000000000000000000000000000000000000000000000000000000000000000000000000000000000000000000000000000000000000000000000000000000000000000000000000000000000000000d"
     = JS.Infinity
  /\ (let cfg := JWTService.from_env None None
                   (Some "1000000000000000000000000000000000000000000000000000000000000000000000000000000000000000000000000000000000000000000000000000000000000000000000000000000000000000000000000000000000000000000000000000000000000000000000000000000000000000000000000000000000000000000000000000000000000000000000000000000000000000000000d")
                   None in
      let t := JWTService.generateAccessToken cfg
                 (JWTService.subject_claims "u1" "a@x.com" "ADMIN" 4) 5000 in
      JS.lookup_field "exp" (JWTService.payload_of t) = JS.VNull
      /\ JWTService.verifyAccessToken cfg t 5000 = None).
Proof. repeat split; vm_compute; reflexivity. Qed.

Lemma access_level_gate_never_rejects_witness :
  let cfg := JWTService.default_config in
  let user := JWTService.subject_claims "u1" "a@x.com" "USUARIO" 1 in
  let req := {| Middleware.authorization :=
                  Some [JWTService.Opaque "Bearer";
                        JWTService.generateAccessToken cfg user 0];
                Middleware.user := JS.VUndef |} in
  let req' := fst (Middleware.authMiddleware cfg req 1000) in
  snd (Middleware.authMiddleware cfg req 1000) = Middleware.Next
  /\ JS.get "accessLevel" (Middleware.user req') = JS.VUndef
  /\ Middleware.accessLevelMiddleware 4 req' = Middleware.Next.
Proof.
  cbv zeta. split; [vm_compute; reflexivity|].
  pose proof (access_level_gate_never_rejects JWTService.default_config
                (JWTService.subject_claims "u1" "a@x.com" "USUARIO" 1) 0 1000
                {| Middleware.authorization :=
                     Some [JWTService.Opaque "Bearer";
                           JWTService.generateAccessToken JWTService.default_config
                             (JWTService.subject_claims "u1" "a@x.com" "USUARIO" 1) 0];
                   Middleware.user := JS.VUndef |}
                _ eq_refl eq_refl) as (_ & Hu & Hgate).
  split; [exact Hu|exact (Hgate 4)].
Defined.

(* ================================================================== *)
(** * The login rate limiter *)
(* ================================================================== *)

Section Throttle.

Import RateLimiter.

Implicit Types (m : gmap string attempt) (id : string) (r : attempt).

Lemma recordAttempt_fresh m id now :
  m !! id = None ->
  recordAttempt now id m = <[id := {| count := 1; timestamp := now |}]> m.
Proof. intros E. unfold recordAttempt. now rewrite E. Qed.

Lemma recordAttempt_expired m id r now :
  m !! id = Some r -> lockoutDuration < now - timestamp r ->
  recordAttempt now id m = <[id := {| count := 1; timestamp := now |}]> m.
Proof.
  intros E Hexp. unfold recordAttempt. rewrite E. cbv zeta.
  destruct (Z.ltb_spec lockoutDuration (now - timestamp r)); [reflexivity|lia].
Qed.

Lemma recordAttempt_live m id r now :
  m !! id = Some r -> now - timestamp r <= lockoutDuration ->
  recordAttempt now id m
  = <[id := {| count := count r + 1; timestamp := now |}]> m.
Proof.
  intros E Hlive. unfold recordAttempt. rewrite E. cbv zeta.
  destruct (Z.ltb_spec lockoutDuration (now - timestamp r)); [lia|reflexivity].
Qed.

(** Whatever was stored, one call leaves an entry stamped [now] whose
    count is 1 or one more than before. *)
Lemma recordAttempt_lookup m id now :
  exists c : Z,
    recordAttempt now id m !! id = Some {| count := c; timestamp := now |}
    /\ (c = 1 \/ exists r, m !! id = Some r /\ c = count r + 1).
Proof.
  unfold recordAttempt. destruct (m !! id) as [r|] eqn:E; cbv zeta.
  - destruct (lockoutDuration <? now - timestamp r);
      eexists; rewrite lookup_insert_eq; split; eauto.
  - eexists. rewrite lookup_insert_eq. split; eauto.
Qed.

Lemma last_cons_default (l : list Z) :
  forall x d d' : Z, List.last (x :: l) d = List.last (x :: l) d'.
Proof.
  induction l as [|y l IH]; intros x d d'; [reflexivity|].
  change (List.last (y :: l) d = List.last (y :: l) d'). apply IH.
Qed.

(** Calls that follow a live entry within the window only add up. *)
Lemma recordAttempts_live (times : list Z) :
  forall m id r,
    m !! id = Some r ->
    within_window (timestamp r) times = true ->
    recordAttempts times id m !! id
    = Some {| count := count r + Z.of_nat (List.length times);
              timestamp := List.last times (timestamp r) |}.
Proof.
  induction times as [|t times IH]; intros m id r E Hw.
  - cbn. rewrite E, Z.add_0_r. now destruct r.
  - cbn [within_window] in Hw. apply andb_true_iff in Hw.
    destruct Hw as [Ht Hw]. apply Z.leb_le in Ht.
    cbn [recordAttempts]. rewrite (recordAttempt_live m id r t E Ht).
    rewrite (IH _ id {| count := count r + 1; timestamp := t |});
      [| apply lookup_insert_eq | exact Hw ].
    cbn [count timestamp]. f_equal. f_equal.
    + rewrite length_cons. lia.
    + destruct times as [|z times]; [reflexivity|].
      change (List.last (z :: times) t = List.last (z :: times) (timestamp r)).
      apply last_cons_default.
Qed.

(** From no entry, [n] calls within the window count to exactly [n]. *)
Lemma recordAttempts_fresh_count m id (t : Z) (times : list Z) :
  m !! id = None ->
  within_window t times = true ->
  recordAttempts (t :: times) id m !! id
  = Some {| count := Z.of_nat (List.length (t :: times));
            timestamp := List.last times t |}.
Proof.
  intros E Hw. cbn [recordAttempts]. rewrite (recordAttempt_fresh m id t E).
  rewrite (recordAttempts_live times _ id {| count := 1; timestamp := t |});
    [| apply lookup_insert_eq | exact Hw ].
  cbn [count timestamp]. rewrite length_cons. f_equal. f_equal. lia.
Qed.

Lemma isLocked_live m id r now :
  m !! id = Some r -> now - timestamp r <= lockoutDuration ->
  isLocked now id m = (maxAttempts <=? count r, m).
Proof.
  intros E Hlive. unfold isLocked. rewrite E. cbv zeta.
  destruct (Z.ltb_spec lockoutDuration (now - timestamp r)); [lia|reflexivity].
Qed.

Lemma isLocked_expired m id r now :
  m !! id = Some r -> lockoutDuration < now - timestamp r ->
  isLocked now id m = (false, delete id m).
Proof.
  intros E Hexp. unfold isLocked. rewrite E. cbv zeta.
  destruct (Z.ltb_spec lockoutDuration (now - timestamp r)); [reflexivity|lia].
Qed.

Lemma isLocked_under_threshold m id r now :
  m !! id = Some r -> count r < maxAttempts -> fst (isLocked now id m) = false.
Proof.
  intros E Hc. unfold isLocked. rewrite E. cbv zeta.
  destruct (lockoutDuration <? now - timestamp r); [reflexivity|].
  cbn [fst]. apply Z.leb_gt. exact Hc.
Qed.

(** C4. (1) [maxAttempts] calls of [recordAttempt], the first one finding
    no entry or an entry with a non-negative count and each following one
    within the window of the one before, leave the identity locked for as
    long as the window of the last call lasts; from no entry the count is
    then exactly [maxAttempts].  (2) A call made after the window of the
    stored entry has elapsed stores count 1, and the identity is then not
    locked.  (3) An entry with a count below [maxAttempts] is not locked.
    (4) [isLocked] on an expired entry answers false and deletes it. *)
Theorem rate_limiter_lockout :
  (forall m id (t : Z) (times : list Z) (now : Z),
      (forall r, m !! id = Some r -> 0 <= count r) ->
      Z.of_nat (List.length (t :: times)) = maxAttempts ->
      within_window t times = true ->
      now - List.last times t <= lockoutDuration ->
      fst (isLocked now id (recordAttempts (t :: times) id m)) = true
      /\ (m !! id = None ->
          recordAttempts (t :: times) id m !! id
          = Some {| count := maxAttempts; timestamp := List.last times t |}))
  /\ (forall m id r (now : Z),
         m !! id = Some r ->
         lockoutDuration < now - timestamp r ->
         recordAttempt now id m !! id = Some {| count := 1; timestamp := now |}
         /\ forall now' : Z,
             fst (isLocked now' id (recordAttempt now id m)) = false)
  /\ (forall m id r (now : Z),
         m !! id = Some r ->
         count r < maxAttempts ->
         fst (isLocked now id m) = false)
  /\ (forall m id r (now : Z),
         m !! id = Some r ->
         lockoutDuration < now - timestamp r ->
         isLocked now id m = (false, delete id m)).
Proof.
  split; [|split; [|split]].
  - intros m id t times now Hpos Hlen Hw Hnow.
    destruct (recordAttempt_lookup m id t) as (c & Hc & Hfrom).
    assert (Hc1 : 1 <= c).
    { destruct Hfrom as [-> | (r & Hr & ->)]; [lia|].
      specialize (Hpos r Hr). lia. }
    pose proof (recordAttempts_live times _ id _ Hc Hw) as Hall.
    cbn [count timestamp] in Hall.
    split.
    + cbn [recordAttempts].
      rewrite (isLocked_live _ id _ now Hall); [|exact Hnow].
      cbn [fst count]. apply Z.leb_le. rewrite length_cons in Hlen. lia.
    + intros Hnone. rewrite <- Hlen.
      apply recordAttempts_fresh_count; assumption.
  - intros m id r now E Hexp.
    rewrite (recordAttempt_expired m id r now E Hexp).
    split; [apply lookup_insert_eq|].
    intros now'. eapply isLocked_under_threshold;
      [apply lookup_insert_eq | reflexivity].
  - intros m id r now. apply isLocked_under_threshold.
  - intros m id r now. apply isLocked_expired.
Qed.

End Throttle.

Lemma rate_limiter_lockout_witness :
  let times := [1000; 2000; 3000; 4000] in
  let locked := RateLimiter.recordAttempts (0 :: times) "a@x.com" ∅ in
  fst (RateLimiter.isLocked 5000 "a@x.com" locked) = true
  /\ locked !! "a@x.com"
     = Some {| RateLimiter.count := 5; RateLimiter.timestamp := 4000 |}
  /\ RateLimiter.recordAttempt 1000000 "a@x.com" locked !! "a@x.com"
     = Some {| RateLimiter.count := 1; RateLimiter.timestamp := 1000000 |}
  /\ fst (RateLimiter.isLocked 1000001 "a@x.com"
            (RateLimiter.recordAttempt 1000000 "a@x.com" locked)) = false
  /\ RateLimiter.isLocked 1000000 "a@x.com" locked
     = (false, delete "a@x.com" locked).
Proof.
  cbv zeta.
  destruct rate_limiter_lockout as (Hlock & Hreset & _ & Hpurge).
  assert (Hstored :
            RateLimiter.recordAttempts [0; 1000; 2000; 3000; 4000] "a@x.com" ∅
              !! "a@x.com"
            = Some {| RateLimiter.count := 5; RateLimiter.timestamp := 4000 |})
    by (vm_compute; reflexivity).
  destruct (Hlock ∅ "a@x.com" 0 [1000; 2000; 3000; 4000] 5000) as (H1 & H2).
  - intros r Hr. rewrite lookup_empty in Hr. discriminate Hr.
  - reflexivity.
  - reflexivity.
  - vm_compute. discriminate.
  - destruct (Hreset _ "a@x.com" _ 1000000 Hstored) as (H3 & H4).
    + vm_compute. reflexivity.
    + split; [exact H1|]. split; [exact Hstored|]. split; [exact H3|].
      split; [exact (H4 1000001)|].
      apply (Hpurge _ "a@x.com" _ 1000000 Hstored). vm_compute. reflexivity.
Defined.

(* ================================================================== *)
(** * The authentication service *)
(* ================================================================== *)

Section Orchestrator.

Import AuthService.

Context `{BcryptLib} {engine : Engine}.
Variable cfg : JWTService.config.

Implicit Types (st : state) (request : LoginRequest).

Lemma state_eta st :
  {| users := users st; loginAttempts := loginAttempts st |} = st.
Proof. now destruct st. Qed.

(** A positive answer of [isLocked] leaves the map as it was. *)
Lemma isLocked_true_unchanged (now : Z) (id : string)
      (m : gmap string RateLimiter.attempt) :
  fst (RateLimiter.isLocked now id m) = true ->
  RateLimiter.isLocked now id m = (true, m).
Proof.
  unfold RateLimiter.isLocked. destruct (m !! id) as [r|]; cbv zeta.
  - destruct (RateLimiter.lockoutDuration <? now - RateLimiter.timestamp r);
      cbn [fst]; [discriminate|]. now intros ->.
  - cbn [fst]. discriminate.
Qed.

(** What [login] does once both fields are present and the identity is
    locked. *)
Lemma login_locked request (now : Z) st :
  Chars.is_empty (login_email request) = false ->
  Chars.is_empty (login_password request) = false ->
  fst (RateLimiter.isLocked now (login_email request) (loginAttempts st)) = true ->
  login cfg request now st
  = (Throw msg_locked, st, [CallIsLocked (login_email request)]).
Proof.
  intros He Hp Hlocked. unfold login. rewrite He, Hp. cbn [orb].
  rewrite (isLocked_true_unchanged _ _ _ Hlocked), state_eta. reflexivity.
Qed.

(** What [login] does when it answers with the generic credentials
    error: the fields were present, and one failure was recorded on top
    of what [isLocked] left. *)
Lemma login_invalid_credentials request (now : Z) st :
  fst (fst (login cfg request now st)) = Throw msg_invalid_credentials ->
  Chars.is_empty (login_email request) = false
  /\ fst (RateLimiter.isLocked now (login_email request) (loginAttempts st))
     = false
  /\ snd (fst (login cfg request now st))
     = {| users := users st;
          loginAttempts :=
            RateLimiter.recordAttempt now (login_email request)
              (snd (RateLimiter.isLocked now (login_email request)
                      (loginAttempts st))) |}.
Proof.
  unfold login.
  destruct (Chars.is_empty (login_email request)) eqn:He; cbn [orb];
    [discriminate|].
  destruct (Chars.is_empty (login_password request)) eqn:Hp; [discriminate|].
  destruct (RateLimiter.isLocked now (login_email request) (loginAttempts st))
    as [locked attempts].
  destruct locked; [discriminate|].
  destruct (map_get (login_email request) (users st)) as [u|].
  - unfold BcryptService.comparePassword.
    destruct (bcrypt_compare (login_password request) (password u));
      cbn [fst snd]; [discriminate|]. auto.
  - cbn [fst snd]. auto.
Qed.

(** Failed logins for one email, each within the window of the one
    before, record their failures one after the other. *)
Lemma logins_record_failures (e : string) (tries : list (string * Z)) :
  forall st (prev : Z),
    (loginAttempts st !! e = None
     \/ exists r, loginAttempts st !! e = Some r
                  /\ RateLimiter.timestamp r = prev) ->
    RateLimiter.within_window prev (map snd tries) = true ->
    Forall (fun r => r = Throw msg_invalid_credentials)
           (fst (logins cfg (attempts_for e tries) st)) ->
    snd (logins cfg (attempts_for e tries) st)
    = {| users := users st;
         loginAttempts :=
           RateLimiter.recordAttempts (map snd tries) e (loginAttempts st) |}.
Proof.
  induction tries as [|[p t] tries IH]; intros st prev Hstart Hw Hall.
  - cbn. now rewrite state_eta.
  - cbn [attempts_for map logins fst snd] in *.
    apply andb_true_iff in Hw. destruct Hw as [Ht Hw]. apply Z.leb_le in Ht.
    destruct (login cfg {| login_email := e; login_password := p |} t st)
      as [[r st'] calls] eqn:Hlogin.
    fold (attempts_for e tries) in *.
    destruct (logins cfg (attempts_for e tries) st') as [rs st''] eqn:Hrest.
    cbn [fst snd] in *.
    apply Forall_cons_iff in Hall. destruct Hall as [Hr Hrs].
    pose proof (login_invalid_credentials
                  {| login_email := e; login_password := p |} t st) as Hinv.
    rewrite Hlogin in Hinv. cbn [fst snd login_email] in Hinv.
    destruct (Hinv Hr) as (_ & _ & Hst').
    assert (Hsame : snd (RateLimiter.isLocked t e (loginAttempts st))
                    = loginAttempts st).
    { unfold RateLimiter.isLocked.
      destruct Hstart as [E | (r0 & E & Hprev)]; rewrite E; [reflexivity|].
      cbv zeta. rewrite Hprev.
      destruct (Z.ltb_spec RateLimiter.lockoutDuration (t - prev));
        [lia|reflexivity]. }
    rewrite Hsame in Hst'.
    specialize (IH st' t). rewrite Hrest in IH. cbn [fst snd] in IH.
    rewrite IH; [subst st'; reflexivity | | exact Hw | exact Hrs].
    right. subst st'. cbn [loginAttempts].
    destruct (recordAttempt_lookup (loginAttempts st) e t)
      as (c & Hc & _).
    eexists. split; [exact Hc|reflexivity].
Qed.

(** C5. (1) A login for an identity that [isLocked] reports locked ends
    in an error without a lookup in [users], without a password
    comparison and without a recorded failure, and leaves the state as it
    was; with both fields present the error is the lockout error.
    (2) After [maxAttempts] logins for one email that each failed with
    the credentials error, starting from no entry and each within the
    window of the one before, the next login within the window fails with
    the lockout error whatever password it brings, and its only call is
    [isLocked]. *)
Theorem locked_login_fails_before_credentials :
  (forall request (now : Z) st,
      fst (RateLimiter.isLocked now (login_email request) (loginAttempts st))
      = true ->
      is_throw (fst (fst (login cfg request now st))) = true
      /\ (Chars.is_empty (login_email request) = false ->
          Chars.is_empty (login_password request) = false ->
          fst (fst (login cfg request now st)) = Throw msg_locked)
      /\ snd (fst (login cfg request now st)) = st
      /\ existsb touches_credentials (snd (login cfg request now st)) = false
      /\ existsb records_failure (snd (login cfg request now st)) = false)
  /\ (forall st (e p : string) (t : Z) (tries : list (string * Z))
             (pw : string) (now : Z),
         loginAttempts st !! e = None ->
         Z.of_nat (List.length ((p, t) :: tries)) = RateLimiter.maxAttempts ->
         RateLimiter.within_window t (map snd tries) = true ->
         Forall (fun r => r = Throw msg_invalid_credentials)
                (fst (logins cfg (attempts_for e ((p, t) :: tries)) st)) ->
         now - List.last (map snd tries) t <= RateLimiter.lockoutDuration ->
         Chars.is_empty pw = false ->
         let st' := snd (logins cfg (attempts_for e ((p, t) :: tries)) st) in
         login cfg {| login_email := e; login_password := pw |} now st'
         = (Throw msg_locked, st', [CallIsLocked e])).
Proof.
  split.
  - intros request now st Hlocked.
    destruct (Chars.is_empty (login_email request)
              || Chars.is_empty (login_password request)) eqn:Hmissing.
    + unfold login. rewrite Hmissing. cbn.
      repeat split; try reflexivity.
      intros He Hp. rewrite He, Hp in Hmissing. discriminate.
    + apply orb_false_iff in Hmissing. destruct Hmissing as [He Hp].
      rewrite (login_locked request now st He Hp Hlocked). cbn.
      repeat split; reflexivity.
  - intros st e p t tries pw now Hnone Hlen Hw Hall Hnow Hpw st'.
    assert (He : Chars.is_empty e = false).
    { cbn [attempts_for map logins fst snd] in Hall.
      pose proof (login_invalid_credentials
                    {| login_email := e; login_password := p |} t st) as Hinv.
      destruct (login cfg {| login_email := e; login_password := p |} t st)
        as [[r0 st0] calls0].
      destruct (logins cfg _ st0) as [rs st1].
      cbn [fst snd login_email] in *.
      apply Forall_cons_iff in Hall. destruct Hall as [Hr _].
      now destruct (Hinv Hr). }
    assert (Hst' : st' = {| users := users st;
                            loginAttempts :=
                              RateLimiter.recordAttempts
                                (map snd ((p, t) :: tries)) e
                                (loginAttempts st) |}).
    { subst st'. apply (logins_record_failures e ((p, t) :: tries) st t).
      - now left.
      - cbn [map snd RateLimiter.within_window]. rewrite Hw, andb_true_r.
        apply Z.leb_le. rewrite Z.sub_diag. discriminate.
      - exact Hall. }
    assert (Hentry : loginAttempts st' !! e
                     = Some {| RateLimiter.count := RateLimiter.maxAttempts;
                               RateLimiter.timestamp :=
                                 List.last (map snd tries) t |}).
    { rewrite Hst'. cbn [loginAttempts map snd].
      rewrite (recordAttempts_fresh_count _ e t (map snd tries) Hnone Hw).
      rewrite <- Hlen, !length_cons, length_map. reflexivity. }
    apply login_locked; cbn [login_email login_password]; try assumption.
    rewrite (isLocked_live _ e _ now Hentry); [reflexivity|exact Hnow].
Qed.

(** What one failed login leaves in the map: [isLocked] answered no, then
    [recordAttempt] ran.  The entry of the identifier counts one failure
    more than before (one, after an expired or absent entry) and carries
    the time of the call; no other entry changes. *)
Lemma failed_login_entry (now : Z) (e : string)
      (m : gmap string RateLimiter.attempt) :
  let m' := RateLimiter.recordAttempt now e (snd (RateLimiter.isLocked now e m)) in
  m' !! e
  = Some {| RateLimiter.count :=
              match m !! e with
              | Some r =>
                  if RateLimiter.lockoutDuration <? now - RateLimiter.timestamp r
                  then 1 else RateLimiter.count r + 1
              | None => 1
              end;
            RateLimiter.timestamp := now |}
  /\ forall id, id <> e -> m' !! id = m !! id.
Proof.
  cbv zeta. unfold RateLimiter.isLocked.
  destruct (m !! e) as [r|] eqn:E; cbv zeta.
  - destruct (RateLimiter.lockoutDuration <? now - RateLimiter.timestamp r) eqn:Hexp;
      cbn [snd]; unfold RateLimiter.recordAttempt.
    + rewrite lookup_delete_eq. split.
      * now rewrite lookup_insert_eq.
      * intros id Hid. rewrite lookup_insert_ne by congruence.
        now rewrite lookup_delete_ne by congruence.
    + rewrite E. cbv zeta. rewrite Hexp. split.
      * now rewrite lookup_insert_eq.
      * intros id Hid. now rewrite lookup_insert_ne by congruence.
  - cbn [snd]. unfold RateLimiter.recordAttempt. rewrite E. split.
    + now rewrite lookup_insert_eq.
    + intros id Hid. now rewrite lookup_insert_ne by congruence.
Qed.

(** C6. With both fields present and the identity not locked, a login
    for an email that [users] does not hold and a login for a stored
    email with a password that does not compare equal end in the same
    error, the credentials error with one and the same message.  Each
    records exactly one failure for its email: [recordAttempt] is called
    once, for that email; afterwards the entry of the email counts one
    failure more than before (one, if it was absent or expired) at the
    time of the call, every other entry is as it was, and so is
    [users]. *)
Theorem invalid_credentials_indistinguishable
        (req1 req2 : LoginRequest) (now1 now2 : Z) (st1 st2 : state)
        (u : stored_user) :
  Chars.is_empty (login_email req1) = false ->
  Chars.is_empty (login_password req1) = false ->
  Chars.is_empty (login_email req2) = false ->
  Chars.is_empty (login_password req2) = false ->
  fst (RateLimiter.isLocked now1 (login_email req1) (loginAttempts st1)) = false ->
  fst (RateLimiter.isLocked now2 (login_email req2) (loginAttempts st2)) = false ->
  map_get (login_email req1) (users st1) = None ->
  map_get (login_email req2) (users st2) = Some u ->
  bcrypt_compare (login_password req2) (password u) = false ->
  fst (fst (login cfg req1 now1 st1)) = Throw msg_invalid_credentials
  /\ fst (fst (login cfg req2 now2 st2)) = fst (fst (login cfg req1 now1 st1))
  /\ loginAttempts (snd (fst (login cfg req1 now1 st1)))
     = RateLimiter.recordAttempt now1 (login_email req1)
         (snd (RateLimiter.isLocked now1 (login_email req1) (loginAttempts st1)))
  /\ loginAttempts (snd (fst (login cfg req2 now2 st2)))
     = RateLimiter.recordAttempt now2 (login_email req2)
         (snd (RateLimiter.isLocked now2 (login_email req2) (loginAttempts st2)))
  /\ List.filter records_failure (snd (login cfg req1 now1 st1))
     = [CallRecordAttempt (login_email req1)]
  /\ List.filter records_failure (snd (login cfg req2 now2 st2))
     = [CallRecordAttempt (login_email req2)]
  /\ loginAttempts (snd (fst (login cfg req1 now1 st1))) !! login_email req1
     = Some {| RateLimiter.count :=
                 match loginAttempts st1 !! login_email req1 with
                 | Some r =>
                     if RateLimiter.lockoutDuration
                          <? now1 - RateLimiter.timestamp r
                     then 1 else RateLimiter.count r + 1
                 | None => 1
                 end;
               RateLimiter.timestamp := now1 |}
  /\ loginAttempts (snd (fst (login cfg req2 now2 st2))) !! login_email req2
     = Some {| RateLimiter.count :=
                 match loginAttempts st2 !! login_email req2 with
                 | Some r =>
                     if RateLimiter.lockoutDuration
                          <? now2 - RateLimiter.timestamp r
                     then 1 else RateLimiter.count r + 1
                 | None => 1
                 end;
               RateLimiter.timestamp := now2 |}
  /\ (forall id, id <> login_email req1 ->
        loginAttempts (snd (fst (login cfg req1 now1 st1))) !! id
        = loginAttempts st1 !! id)
  /\ (forall id, id <> login_email req2 ->
        loginAttempts (snd (fst (login cfg req2 now2 st2))) !! id
        = loginAttempts st2 !! id)
  /\ users (snd (fst (login cfg req1 now1 st1))) = users st1
  /\ users (snd (fst (login cfg req2 now2 st2))) = users st2.
Proof.
  intros He1 Hp1 He2 Hp2 Hl1 Hl2 Hu1 Hu2 Hcmp.
  destruct (failed_login_entry now1 (login_email req1) (loginAttempts st1))
    as [Hentry1 Hrest1].
  destruct (failed_login_entry now2 (login_email req2) (loginAttempts st2))
    as [Hentry2 Hrest2].
  revert Hentry1 Hrest1 Hentry2 Hrest2.
  unfold login. rewrite He1, Hp1, He2, Hp2. cbn [orb].
  destruct (RateLimiter.isLocked now1 (login_email req1) (loginAttempts st1))
    as [l1 a1].
  destruct (RateLimiter.isLocked now2 (login_email req2) (loginAttempts st2))
    as [l2 a2].
  cbn [fst snd] in *. subst l1 l2.
  rewrite Hu1, Hu2. unfold BcryptService.comparePassword. rewrite Hcmp.
  cbn [fst snd loginAttempts users]. intros Hentry1 Hrest1 Hentry2 Hrest2.
  repeat split; try reflexivity; assumption.
Qed.

(** [refreshAccessToken] never returns: the object [verifyRefreshToken]
    hands back has no [email] property, so the lookup key is [undefined]
    and [users] has no such key. *)
Lemma refreshAccessToken_never_returns (t : JWTService.token) (now : Z) st :
  refreshAccessToken cfg t now st
  = match JWTService.verifyRefreshToken cfg t now with
    | Some _ => Throw msg_not_found
    | None => Throw msg_invalid_refresh
    end.
Proof.
  unfold refreshAccessToken, JWTService.verifyRefreshToken.
  destruct (JWTService.jwt_verify t (JWTService.refreshSecret cfg) now);
    reflexivity.
Qed.

(** C9. No value that [register], [login], [refreshAccessToken],
    [getUserById], [updateUserAccessLevel] or [updateUserRole] returns
    has a [password] property, at any depth; for [login] and
    [refreshAccessToken] this includes the payloads of the tokens. *)
Theorem results_carry_no_password :
  (forall (request : RegisterRequest) (rnd_id salt : string) (now : Z) st,
      outcome_has_key (JS.has_key "password")
        (fst (register request rnd_id salt now st)) = false)
  /\ (forall request (now : Z) st,
         outcome_has_key (login_response_has_key "password")
           (fst (fst (login cfg request now st))) = false)
  /\ (forall (t : JWTService.token) (now : Z) st,
         outcome_has_key (token_has_key "password")
           (refreshAccessToken cfg t now st) = false)
  /\ (forall (userId : JS.value) st,
         JS.has_key "password" (getUserById userId st) = false)
  /\ (forall (userId : JS.value) (level : Z) st,
         outcome_has_key (JS.has_key "password")
           (fst (updateUserAccessLevel userId level st)) = false)
  /\ (forall (userId : JS.value) (r : string) st,
         outcome_has_key (JS.has_key "password")
           (fst (updateUserRole userId r st)) = false).
Proof.
  repeat split.
  - intros request rnd_id salt now st. unfold register.
    destruct (_ || _ || _); [reflexivity|].
    destruct (map_has _ _); [reflexivity|].
    destruct (BcryptService.hashPassword _ _); reflexivity.
  - intros request now st. unfold login.
    destruct (_ || _); [reflexivity|].
    destruct (RateLimiter.isLocked _ _ _) as [[|] attempts]; [reflexivity|].
    destruct (map_get _ _) as [u|]; [|reflexivity].
    unfold BcryptService.comparePassword.
    destruct (bcrypt_compare _ _); [|reflexivity].
    unfold JWTService.generateAccessToken, JWTService.generateRefreshToken.
    cbv zeta.
    destruct (JS.add _ (JWTService.getExpirySeconds (JWTService.jwtExpire cfg)));
      destruct (JS.add _ (JWTService.getExpirySeconds
                            (JWTService.refreshExpire cfg)));
      reflexivity.
  - intros t now st. unfold refreshAccessToken.
    destruct (JWTService.verifyRefreshToken cfg t now); [|reflexivity].
    destruct (map_get_value _ _); [|reflexivity].
    unfold JWTService.generateAccessToken. cbv zeta.
    destruct (JS.add _ _); reflexivity.
  - intros userId st. unfold getUserById.
    destruct (find_user _ _); reflexivity.
  - intros userId level st. unfold updateUserAccessLevel.
    destruct (update_first _ _ _) as [[u m']|]; reflexivity.
  - intros userId r st. unfold updateUserRole.
    destruct (update_first _ _ _) as [[u m']|]; reflexivity.
Qed.

End Orchestrator.

(** ** The scenario, evaluated *)

Section ScenarioFacts.

Import AuthService Scenario.

Existing Instance reference_bcrypt.

(** Ana's request passes the three checks and the hash, and ends at line
    60: nothing is stored. *)
Example register_ana (engine : Engine) :
  register ana "k3j9x0q2m" "salt" 0 initial = (Throw line60_error, initial).
Proof. reflexivity. Qed.

Example login_ana :
  fst (fst (login cfg (credentials "a@x.com" "Str0ng!Pass123") 1000 stored))
  = Ok {| accessToken :=
            JWTService.Signed
              [("userId", JS.VStr "k3j9x0q2m"); ("email", JS.VStr "a@x.com");
               ("role", JS.VStr "USUARIO"); ("iat", JS.VNum 1);
               ("exp", JS.VNum 86401)] "secret-key-change-me";
          refreshToken :=
            JWTService.Signed
              [("userId", JS.VObj [("id", JS.VStr "k3j9x0q2m");
                                   ("email", JS.VStr "a@x.com")]);
               ("type", JS.VStr "refresh"); ("iat", JS.VNum 1);
               ("exp", JS.VNum 604801)] "refresh-key-change-me";
          user := JS.VObj [("id", JS.VStr "k3j9x0q2m");
                           ("email", JS.VStr "a@x.com");
                           ("role", JS.VStr "USUARIO");
                           ("accessLevel", JS.VNum 1)] |}.
Proof. vm_compute. reflexivity. Qed.


End ScenarioFacts.

Lemma locked_login_fails_before_credentials_witness :
  Forall (fun r => r = Throw AuthService.msg_invalid_credentials)
         (fst (AuthService.logins (H := reference_bcrypt) Scenario.cfg
                 (AuthService.attempts_for "a@x.com" Scenario.wrong_tries)
                 Scenario.stored))
  /\ AuthService.login (H := reference_bcrypt) Scenario.cfg
       (Scenario.credentials "a@x.com" "Str0ng!Pass123") 6000
       Scenario.after_failures
     = (Throw AuthService.msg_locked, Scenario.after_failures,
        [AuthService.CallIsLocked "a@x.com"])
  /\ snd (fst (AuthService.login (H := reference_bcrypt) Scenario.cfg
                 (Scenario.credentials "a@x.com" "Str0ng!Pass123") 6000
                 Scenario.after_failures))
     = Scenario.after_failures.
Proof.
  assert (Hall : Forall (fun r => r = Throw AuthService.msg_invalid_credentials)
                   (fst (AuthService.logins (H := reference_bcrypt) Scenario.cfg
                           (AuthService.attempts_for "a@x.com" Scenario.wrong_tries)
                           Scenario.stored))).
  { vm_compute. repeat constructor. }
  assert (Hlocked : fst (RateLimiter.isLocked 6000 "a@x.com"
                           (AuthService.loginAttempts Scenario.after_failures))
                    = true)
    by (vm_compute; reflexivity).
  destruct (locked_login_fails_before_credentials (H := reference_bcrypt)
              Scenario.cfg) as [Hfirst Hsixth].
  split; [exact Hall|]. split.
  - apply (Hsixth Scenario.stored "a@x.com" "wrong" 1000
             [("wrong", 2000); ("wrong", 3000); ("wrong", 4000); ("wrong", 5000)]
             "Str0ng!Pass123" 6000).
    + vm_compute. reflexivity.
    + reflexivity.
    + reflexivity.
    + exact Hall.
    + vm_compute. discriminate.
    + reflexivity.
  - exact (proj1 (proj2 (proj2
             (Hfirst (Scenario.credentials "a@x.com" "Str0ng!Pass123") 6000
                     Scenario.after_failures Hlocked)))).
Defined.

Lemma invalid_credentials_indistinguishable_witness :
  fst (fst (AuthService.login (H := reference_bcrypt) Scenario.cfg
              (Scenario.credentials "unknown@x.com" "whatever") 1000
              Scenario.stored))
  = Throw "Invalid email or password"
  /\ fst (fst (AuthService.login (H := reference_bcrypt) Scenario.cfg
                 (Scenario.credentials "a@x.com" "wrong") 2000
                 Scenario.stored))
     = Throw "Invalid email or password"
  /\ AuthService.loginAttempts
       (snd (fst (AuthService.login (H := reference_bcrypt) Scenario.cfg
                    (Scenario.credentials "unknown@x.com" "whatever") 1000
                    Scenario.stored))) !! "unknown@x.com"
     = Some {| RateLimiter.count := 1; RateLimiter.timestamp := 1000 |}
  /\ AuthService.loginAttempts
       (snd (fst (AuthService.login (H := reference_bcrypt) Scenario.cfg
                    (Scenario.credentials "a@x.com" "wrong") 2000
                    Scenario.stored))) !! "a@x.com"
     = Some {| RateLimiter.count := 1; RateLimiter.timestamp := 2000 |}.
Proof.
  pose proof (invalid_credentials_indistinguishable (H := reference_bcrypt)
                Scenario.cfg
                (Scenario.credentials "unknown@x.com" "whatever")
                (Scenario.credentials "a@x.com" "wrong") 1000 2000
                Scenario.stored Scenario.stored Scenario.ana_record
                eq_refl eq_refl eq_refl eq_refl eq_refl eq_refl eq_refl eq_refl
                eq_refl) as (H1 & H2 & _ & _ & _ & _ & H7 & H8 & _).
  split; [exact H1|]. split; [rewrite H2; exact H1|].
  split; [exact H7|exact H8].
Defined.

Lemma results_carry_no_password_example :
  AuthService.outcome_has_key (AuthService.login_response_has_key "password")
    (fst (fst (AuthService.login (H := reference_bcrypt) Scenario.cfg
                 (Scenario.credentials "a@x.com" "Str0ng!Pass123") 1000
                 Scenario.stored))) = false
  /\ is_throw (fst (fst (AuthService.login (H := reference_bcrypt) Scenario.cfg
                           (Scenario.credentials "a@x.com" "Str0ng!Pass123") 1000
                           Scenario.stored))) = false.
Proof. split; vm_compute; reflexivity. Qed.

(* ================================================================== *)
(** * Password hashing and generation *)
(* ================================================================== *)

Section PasswordMore.

Import BcryptService.

Context `{BcryptLib}.

Lemma filter_violates_nil (p : string) :
  forallb (fun r => negb (violates p r)) all_rules = true ->
  List.filter (violates p) all_rules = [].
Proof.
  cbn [all_rules forallb List.filter].
  destruct (violates p MinLength), (violates p HasLower),
    (violates p HasUpper), (violates p HasDigit), (violates p HasSpecial);
    cbn; intros E; try discriminate E; reflexivity.
Qed.

(** X1. [hashPassword] hashes exactly the passwords of at least 12
    characters that hold a lowercase letter, an uppercase letter, a digit
    and a character of [@$!%*?&]; characters outside the alphabet of
    [passwordRegex] do not matter.  Every other password is refused with
    "Invalid password: " followed by the violated rules, joined by ", ". *)
Theorem hashPassword_policy (password salt : string) :
  hashPassword password salt
  = if (12 <=? Z.of_nat (String.length password))
       && Chars.contains Chars.is_lower password
       && Chars.contains Chars.is_upper password
       && Chars.contains Chars.is_digit password
       && Chars.contains Chars.is_special password
    then Ok (bcrypt_hash password saltRounds salt)
    else Throw ("Invalid password: "
                ++ join ", " (map rule_message
                                  (List.filter (violates password) all_rules))).
Proof.
  unfold hashPassword. cbv zeta.
  rewrite validatePassword_valid, validatePassword_errors.
  cbn [all_rules forallb violates]. rewrite !negb_involutive, andb_true_r.
  rewrite !andb_assoc.
  destruct (_ && _ && _ && _ && _); reflexivity.
Qed.

End PasswordMore.

Section Generator.

Import BcryptService SecurePassword.

Lemma contains_existsb (cls : ascii -> bool) (s : string) :
  Chars.contains cls s = existsb cls (list_ascii_of_string s).
Proof. induction s as [|c s IH]; [reflexivity|]. cbn. now rewrite IH. Qed.

Lemma length_list_ascii (s : string) :
  String.length s = List.length (list_ascii_of_string s).
Proof. induction s as [|c s IH]; [reflexivity|]. cbn. now rewrite IH. Qed.

Lemma existsb_Permutation (cls : ascii -> bool) (l l' : list ascii) :
  Permutation l l' -> existsb cls l = existsb cls l'.
Proof.
  induction 1 as [|x l l' _ IH|x y l|l l' l'' _ IH1 _ IH2]; cbn.
  - reflexivity.
  - now rewrite IH.
  - destruct (cls x), (cls y); reflexivity.
  - now rewrite IH1.
Qed.

Lemma contains_append (cls : ascii -> bool) (a b : string) :
  Chars.contains cls (a ++ b)%string
  = Chars.contains cls a || Chars.contains cls b.
Proof.
  induction a as [|c a IH]; [reflexivity|].
  change (String c a ++ b)%string with (String c (a ++ b)%string).
  cbn [Chars.contains]. now rewrite IH, orb_assoc.
Qed.

Lemma length_append (a b : string) :
  String.length (a ++ b)%string = (String.length a + String.length b)%nat.
Proof.
  induction a as [|c a IH]; [reflexivity|].
  change (String c a ++ b)%string with (String c (a ++ b)%string).
  cbn [String.length]. now rewrite IH.
Qed.

(** Reading an alphabet of one class at an index in range gives a
    character of the class. *)
Lemma get_in_class (cls : ascii -> bool) (alphabet : string) :
  Chars.all_in cls alphabet = true ->
  forall i : nat, (i < String.length alphabet)%nat ->
    exists c, String.get i alphabet = Some c /\ cls c = true.
Proof.
  induction alphabet as [|a alphabet IH]; cbn [Chars.all_in String.length].
  - intros _ i Hi. lia.
  - intros Hall i Hi. apply andb_true_iff in Hall. destruct Hall as [Ha Hall].
    destruct i as [|i]; [now exists a|].
    cbn [String.get]. apply (IH Hall). lia.
Qed.

Lemma append_at_in_range (cls : ascii -> bool) (alphabet : string) (i : nat)
      (password : string) :
  Chars.all_in cls alphabet = true -> (i < String.length alphabet)%nat ->
  exists c, append_at alphabet i password
            = (password ++ String c EmptyString)%string
            /\ cls c = true.
Proof.
  intros Hall Hi. destruct (get_in_class cls alphabet Hall i Hi) as (c & Hc & Hcls).
  exists c. unfold append_at. now rewrite Hc.
Qed.

(** The loop adds one character per round and keeps what is there. *)
Lemma fill_in_range (rounds : nat) :
  forall (draws : list nat) (password : string),
    Forall (fun d => (d < String.length allChars)%nat) draws ->
    (rounds <= List.length draws)%nat ->
    String.length (fill rounds draws password)
    = (String.length password + rounds)%nat
    /\ forall cls, Chars.contains cls password = true ->
                   Chars.contains cls (fill rounds draws password) = true.
Proof.
  induction rounds as [|rounds IH]; intros draws password Hall Hlen.
  - cbn. split; [lia|auto].
  - destruct draws as [|d draws]; [cbn in Hlen; lia|].
    apply Forall_cons_iff in Hall. destruct Hall as [Hd Hall].
    cbn [fill List.hd List.tl].
    destruct (append_at_in_range (fun _ => true) allChars d password)
      as (c & -> & _); [reflexivity|exact Hd|].
    destruct (IH draws (password ++ String c EmptyString)%string Hall)
      as [Hl Hc]; [cbn in Hlen; lia|].
    split.
    + rewrite Hl, length_append. cbn. lia.
    + intros cls Hp. apply Hc. rewrite contains_append, Hp. reflexivity.
Qed.

(** X2. Whatever the random draws and whatever order the shuffle leaves,
    the password [generateSecurePassword] returns has 12 characters and
    passes [validatePassword] without an error. *)
Theorem generateSecurePassword_is_valid (u l n s : nat) (draws : list nat)
        (result : string) :
  in_range u l n s draws ->
  generateSecurePassword u l n s draws result ->
  String.length result = 12%nat
  /\ validatePassword result = {| valid := true; errors := [] |}.
Proof.
  intros (Hu & Hl & Hn & Hs & Hdraws & Hcount) Hperm.
  unfold generateSecurePassword in Hperm.
  assert (Hpre : String.length (unshuffled u l n s draws) = 12%nat
                 /\ Chars.contains Chars.is_upper (unshuffled u l n s draws) = true
                 /\ Chars.contains Chars.is_lower (unshuffled u l n s draws) = true
                 /\ Chars.contains Chars.is_digit (unshuffled u l n s draws) = true
                 /\ Chars.contains Chars.is_special (unshuffled u l n s draws) = true).
  { unfold unshuffled. cbv zeta.
    destruct (append_at_in_range Chars.is_upper uppercase u EmptyString)
      as (cu & -> & Hcu); [reflexivity|exact Hu|].
    destruct (append_at_in_range Chars.is_lower lowercase l
                ("" ++ String cu "")%string)
      as (cl & -> & Hcl); [reflexivity|exact Hl|].
    destruct (append_at_in_range Chars.is_digit numbers n
                (("" ++ String cu "") ++ String cl "")%string)
      as (cn & -> & Hcn); [reflexivity|exact Hn|].
    destruct (append_at_in_range Chars.is_special special s
                ((("" ++ String cu "") ++ String cl "") ++ String cn "")%string)
      as (cs & -> & Hcs); [reflexivity|exact Hs|].
    change (((("" ++ String cu "") ++ String cl "") ++ String cn "")
              ++ String cs "")%string
      with (String cu (String cl (String cn (String cs EmptyString)))).
    cbn [String.length]. change (Z.to_nat minPasswordLength - 4)%nat with 8%nat.
    destruct (fill_in_range 8 draws
                (String cu (String cl (String cn (String cs EmptyString))))
                Hdraws Hcount) as [Hlen Hkeep].
    split; [rewrite Hlen; reflexivity|].
    repeat split; apply Hkeep; cbn [Chars.contains];
      rewrite ?Hcu, ?Hcl, ?Hcn, ?Hcs, ?orb_true_r; reflexivity. }
  destruct Hpre as (Hlen & Hup & Hlo & Hdi & Hsp).
  assert (Hlen' : String.length result = 12%nat).
  { rewrite length_list_ascii, (Permutation_length Hperm), <- length_list_ascii.
    exact Hlen. }
  assert (Hsame : forall cls, Chars.contains cls result
                              = Chars.contains cls (unshuffled u l n s draws)).
  { intros cls. rewrite !contains_existsb. now apply existsb_Permutation. }
  split; [exact Hlen'|].
  assert (Hok : forallb (fun r => negb (violates result r)) all_rules = true).
  { cbn [all_rules forallb violates]. rewrite !Hsame, Hlen', Hup, Hlo, Hdi, Hsp.
    reflexivity. }
  pose proof (validatePassword_valid result) as Hv.
  pose proof (validatePassword_errors result) as He.
  rewrite Hok in Hv. rewrite (filter_violates_nil result Hok) in He.
  destruct (validatePassword result) as [v e]. cbn in Hv, He. now subst.
Qed.

End Generator.

Lemma generateSecurePassword_is_valid_witness :
  SecurePassword.in_range 0%nat 1%nat 2%nat 3%nat [4; 30; 55; 62; 68; 0; 17; 41]%nat
  /\ SecurePassword.generateSecurePassword 0%nat 1%nat 2%nat 3%nat [4; 30; 55; 62; 68; 0; 17; 41]%nat
       "e2b%EA3@&arP"
  /\ BcryptService.validatePassword "e2b%EA3@&arP"
     = {| BcryptService.valid := true; BcryptService.errors := [] |}.
Proof.
  assert (Hr : SecurePassword.in_range 0%nat 1%nat 2%nat 3%nat [4; 30; 55; 62; 68; 0; 17; 41]%nat).
  { unfold SecurePassword.in_range. cbn.
    repeat split; try lia. repeat constructor. }
  assert (Hp : SecurePassword.generateSecurePassword 0%nat 1%nat 2%nat 3%nat
                 [4; 30; 55; 62; 68; 0; 17; 41]%nat "e2b%EA3@&arP").
  { unfold SecurePassword.generateSecurePassword.
    apply (bool_decide_unpack _). vm_compute. exact I. }
  split; [exact Hr|]. split; [exact Hp|].
  exact (proj2 (generateSecurePassword_is_valid 0%nat 1%nat 2%nat 3%nat _ _ Hr Hp)).
Defined.

(* ================================================================== *)
(** * Durations and token lifetimes *)
(* ================================================================== *)

Section DurationsMore.

Import JWTService.

Lemma is_unit_not_digit (u : ascii) :
  Chars.is_unit u = true -> Chars.is_digit u = false.
Proof.
  unfold Chars.is_unit. cbn [existsb]. rewrite !orb_true_iff.
  intros [E | [E | [E | [E | E]]]]; try discriminate E;
    apply Ascii.eqb_eq in E; subst u; reflexivity.
Qed.

(** On a run of digits that ends at a unit letter the pattern captures the
    whole run. *)
Lemma match_here_digits (ds : string) (u : ascii) (rest : string) :
  ds <> EmptyString -> Chars.all_in Chars.is_digit ds = true ->
  Chars.is_unit u = true ->
  match_here (ds ++ String u rest) = Some (ds, u).
Proof.
  intros Hne Hds Hu. induction ds as [|c ds IH]; [contradiction|].
  cbn [Chars.all_in] in Hds. apply andb_true_iff in Hds. destruct Hds as [Hc Hds].
  change (String c ds ++ String u rest)%string
    with (String c (ds ++ String u rest)%string).
  cbn [match_here]. rewrite Hc.
  destruct ds as [|d ds].
  - change ("" ++ String u rest)%string with (String u rest).
    cbn [match_here]. rewrite (is_unit_not_digit u Hu), Hu. reflexivity.
  - rewrite IH; [reflexivity|discriminate|exact Hds].
Qed.

Lemma regex_match_skips (pre s : string) :
  Chars.contains Chars.is_digit pre = false ->
  regex_match (pre ++ s) = regex_match s.
Proof.
  induction pre as [|c pre IH]; [reflexivity|].
  cbn [Chars.contains]. intros E. apply orb_false_iff in E. destruct E as [Hc Hpre].
  change (String c pre ++ s)%string with (String c (pre ++ s)%string).
  cbn [regex_match match_here]. rewrite Hc. apply IH, Hpre.
Qed.

Lemma regex_match_digits (pre ds : string) (u : ascii) (rest : string) :
  Chars.contains Chars.is_digit pre = false ->
  ds <> EmptyString -> Chars.all_in Chars.is_digit ds = true ->
  Chars.is_unit u = true ->
  regex_match (pre ++ ds ++ String u rest) = Some (ds, u).
Proof.
  intros Hpre Hne Hds Hu. rewrite (regex_match_skips pre _ Hpre).
  destruct ds as [|c ds]; [contradiction|].
  pose proof (match_here_digits (String c ds) u rest Hne Hds Hu) as Hm.
  change (String c ds ++ String u rest)%string
    with (String c (ds ++ String u rest)%string) in *.
  cbn [regex_match]. now rewrite Hm.
Qed.

Lemma parse_digits_nonneg (s : string) :
  forall acc : Z, 0 <= acc -> Chars.all_in Chars.is_digit s = true ->
                  0 <= JS.parse_digits acc s.
Proof.
  induction s as [|c s IH]; intros acc Hacc Hs; [exact Hacc|].
  cbn [Chars.all_in] in Hs. apply andb_true_iff in Hs. destruct Hs as [Hc Hs].
  cbn [JS.parse_digits]. apply IH; [|exact Hs].
  unfold Chars.is_digit, Chars.in_range in Hc. apply andb_true_iff in Hc.
  destruct Hc as [Hlo _]. apply Z.leb_le in Hlo. unfold JS.digit_value. lia.
Qed.

(** Integers below 2^53 are doubles. *)
Lemma to_double_exact (n : Z) :
  0 <= n < 2 ^ 53 -> JS.to_double n = JS.Finite n.
Proof.
  intros [Hlo Hhi]. unfold JS.to_double, JS.round53. cbv zeta.
  rewrite (Z.abs_eq n Hlo).
  destruct (n <? 2 ^ 53) eqn:E; [|apply Z.ltb_ge in E; lia].
  assert (Hbig : (2 ^ 1024 <=? n) = false).
  { apply Z.leb_gt. apply Z.lt_trans with (2 ^ 53); [exact Hhi|].
    apply Z.pow_lt_mono_r; lia. }
  rewrite Hbig. f_equal.
  destruct (Z.eq_dec n 0) as [->|Hn]; [reflexivity|].
  rewrite Z.sgn_pos by lia. lia.
Qed.

(** X3. For a string that is, after a prefix without digits, a run of
    decimal digits directly followed by [s], [m], [h] or [d] (and anything
    after that), [getExpirySeconds] is the double product of the parsed
    digits and 1, 60, 3600 or 86400; it is the exact product [n * k] of
    the integer [n] the digits spell whenever that product is below
    2^53. *)
Theorem getExpirySeconds_magnitude_times_unit (pre ds rest : string) :
  Chars.contains Chars.is_digit pre = false ->
  ds <> EmptyString ->
  Chars.all_in Chars.is_digit ds = true ->
  (getExpirySeconds (pre ++ ds ++ String "s" rest) = JS.mul (JS.parseInt10 ds) 1
   /\ getExpirySeconds (pre ++ ds ++ String "m" rest)
      = JS.mul (JS.parseInt10 ds) 60
   /\ getExpirySeconds (pre ++ ds ++ String "h" rest)
      = JS.mul (JS.parseInt10 ds) 3600
   /\ getExpirySeconds (pre ++ ds ++ String "d" rest)
      = JS.mul (JS.parseInt10 ds) 86400)
  /\ (forall k : Z, 1 <= k -> JS.parse_digits 0 ds * k < 2 ^ 53 ->
         JS.mul (JS.parseInt10 ds) k = JS.parse_digits 0 ds * k).
Proof.
  intros Hpre Hne Hds. split.
  - unfold getExpirySeconds.
    rewrite !(regex_match_digits pre ds _ rest Hpre Hne Hds) by reflexivity.
    repeat split; reflexivity.
  - intros k Hk Hprod.
    pose proof (parse_digits_nonneg ds 0 ltac:(lia) Hds) as Hn.
    unfold JS.parseInt10. rewrite to_double_exact by nia.
    cbn [JS.mul]. apply to_double_exact. nia.
Qed.

(** What the pattern captures: digits, and a unit letter. *)
Lemma match_here_captures (s : string) :
  forall (value : string) (unit : ascii),
    match_here s = Some (value, unit) ->
    Chars.all_in Chars.is_digit value = true /\ Chars.is_unit unit = true.
Proof.
  induction s as [|c s IH]; intros value unit; [discriminate|].
  cbn [match_here]. destruct (Chars.is_digit c) eqn:Hc; [|discriminate].
  destruct (match_here s) as [[v w]|].
  - intros E. injection E as <- <-. destruct (IH v w eq_refl) as [Hv Hw].
    cbn [Chars.all_in]. now rewrite Hc, Hv.
  - destruct s as [|x s]; [discriminate|].
    destruct (Chars.is_unit x) eqn:Hx; [|discriminate].
    intros E. injection E as <- <-. cbn [Chars.all_in]. now rewrite Hc.
Qed.

Lemma regex_match_captures (s : string) :
  forall (value : string) (unit : ascii),
    regex_match s = Some (value, unit) ->
    Chars.all_in Chars.is_digit value = true /\ Chars.is_unit unit = true.
Proof.
  induction s as [|c s IH]; intros value unit.
  - cbn. discriminate.
  - cbn [regex_match]. destruct (match_here (String c s)) as [[v w]|] eqn:Hm.
    + intros E. injection E as <- <-. exact (match_here_captures _ _ _ Hm).
    + apply IH.
Qed.

Lemma unit_multiplier_positive (u : ascii) :
  Chars.is_unit u = true -> 0 < or_default (multiplier_of u multipliers).
Proof.
  unfold Chars.is_unit. cbn [existsb]. rewrite !orb_true_iff.
  intros [E | [E | [E | [E | E]]]]; try discriminate E;
    apply Ascii.eqb_eq in E; subst u; reflexivity.
Qed.

Lemma round53_bounds (n : Z) :
  0 <= n -> 0 <= JS.round53 n /\ (2 ^ 53 <= n -> 2 ^ 53 <= JS.round53 n).
Proof.
  intros Hn. unfold JS.round53. cbv zeta.
  destruct (n <? 2 ^ 53) eqn:E.
  - apply Z.ltb_lt in E. split; [exact Hn|]. intros Hbig.
    exfalso. apply (Z.lt_irrefl n). now apply Z.lt_le_trans with (2 ^ 53).
  - apply Z.ltb_ge in E.
    assert (Hpos : 0 < n).
    { apply Z.lt_le_trans with (2 ^ 53); [reflexivity|exact E]. }
    assert (Hlog : 53 <= Z.log2 n).
    { apply Z.log2_le_pow2; [exact Hpos|exact E]. }
    set (e := Z.log2 n - 52).
    assert (He : 1 <= e) by (unfold e; lia).
    assert (Hpe : 0 < 2 ^ e) by (apply Z.pow_pos_nonneg; lia).
    assert (Hq : 2 ^ 52 <= n / 2 ^ e).
    { apply Z.div_le_lower_bound; [exact Hpe|].
      rewrite <- Z.pow_add_r by lia.
      replace (e + 52) with (Z.log2 n) by (unfold e; lia).
      apply (Z.log2_spec n Hpos). }
    assert (Hlow : 2 ^ 53 <= n / 2 ^ e * 2 ^ e).
    { apply Z.le_trans with (2 ^ 52 * 2 ^ e).
      - change (2 ^ 53) with (2 ^ 52 * 2 ^ 1).
        apply Z.mul_le_mono_nonneg_l; [discriminate|].
        apply Z.pow_le_mono_r; lia.
      - apply Z.mul_le_mono_nonneg_r; [lia|exact Hq]. }
    assert (Hup : n / 2 ^ e * 2 ^ e <= (n / 2 ^ e + 1) * 2 ^ e).
    { rewrite Z.mul_add_distr_r. lia. }
    assert (H0 : 0 <= 2 ^ 53) by discriminate.
    destruct ((2 ^ (e - 1) <? n mod 2 ^ e)
              || (n mod 2 ^ e =? 2 ^ (e - 1)) && Z.odd (n / 2 ^ e));
      split; intros; lia.
Qed.

(** The double of an integer that is at least [a], for [a] a double below
    2^53 in size, is at least [a]; that of a nonnegative one is
    nonnegative. *)
Lemma to_double_lower (a n : Z) :
  - 2 ^ 53 < a < 2 ^ 53 -> a <= n ->
  match JS.to_double n with
  | JS.Finite m => a <= m /\ (0 <= n -> 0 <= m)
  | JS.Infinity => True
  end.
Proof.
  intros [Hlo Hhi] Han. unfold JS.to_double. cbv zeta.
  destruct (2 ^ 1024 <=? JS.round53 (Z.abs n)); [exact I|].
  destruct (Z.lt_trichotomy n 0) as [Hneg | [-> | Hpos]].
  - rewrite Z.sgn_neg by exact Hneg. rewrite (Z.abs_neq n) by lia.
    assert (Hsmall : - n < 2 ^ 53) by lia.
    unfold JS.round53. apply Z.ltb_lt in Hsmall. rewrite Hsmall. lia.
  - cbn. lia.
  - rewrite Z.sgn_pos by exact Hpos. rewrite (Z.abs_eq n) by lia.
    destruct (round53_bounds n ltac:(lia)) as [H0 Hbig].
    destruct (Z.lt_ge_cases n (2 ^ 53)) as [Hs | Hl].
    + unfold JS.round53. apply Z.ltb_lt in Hs. rewrite Hs. lia.
    + specialize (Hbig Hl). lia.
Qed.

Lemma getExpirySeconds_nonneg (timeStr : string) :
  match getExpirySeconds timeStr with
  | JS.Finite n => 0 <= n
  | JS.Infinity => True
  end.
Proof.
  unfold getExpirySeconds.
  destruct (regex_match timeStr) as [[value unit]|] eqn:Hm; [|cbn; lia].
  destruct (regex_match_captures _ _ _ Hm) as [Hv Hu].
  pose proof (parse_digits_nonneg value 0 ltac:(lia) Hv) as Hn.
  pose proof (unit_multiplier_positive unit Hu) as Hk.
  unfold JS.parseInt10.
  pose proof (to_double_lower 0 (JS.parse_digits 0 value) ltac:(lia) Hn) as H1.
  destruct (JS.to_double (JS.parse_digits 0 value)) as [m|]; [|exact I].
  cbn [JS.mul]. destruct H1 as [Hm0 _].
  pose proof (to_double_lower 0 (m * or_default (multiplier_of unit multipliers))
                ltac:(lia) ltac:(nia)) as H2.
  destruct (JS.to_double _) as [p|]; [|exact I]. now destruct H2.
Qed.

Lemma expiry_after_issue (a : Z) (timeStr : string) :
  0 <= a < 2 ^ 53 ->
  match JS.add a (getExpirySeconds timeStr) with
  | JS.Finite exp => a <= exp
  | JS.Infinity => True
  end.
Proof.
  intros Ha. pose proof (getExpirySeconds_nonneg timeStr) as Hn.
  destruct (getExpirySeconds timeStr) as [n|]; [|exact I].
  cbn [JS.add].
  pose proof (to_double_lower a (a + n) ltac:(lia) ltac:(lia)) as H1.
  destruct (JS.to_double (a + n)); [|exact I]. now destruct H1.
Qed.

Variable cfg : config.

(** X4. Whatever the configured lifetime strings, a token of either class
    issued at a clock reading [now] (milliseconds, from 0 to the largest
    time value 8.64e15) carries the [iat] claim [now / 1000] and an [exp]
    claim that is [null], when the lifetime overflows the doubles, or a
    number not below [iat]: no token is issued already past its expiry
    second. *)
Theorem issued_tokens_expire_after_issue (user : JS.object) (userId : JS.value)
        (now : Z) :
  0 <= now <= 8640000000000000 ->
  (JS.lookup_field "iat" (payload_of (generateAccessToken cfg user now))
   = JS.VNum (now / 1000)
   /\ (JS.lookup_field "exp" (payload_of (generateAccessToken cfg user now))
       = JS.VNull
       \/ exists exp : Z,
           JS.lookup_field "exp" (payload_of (generateAccessToken cfg user now))
           = JS.VNum exp /\ now / 1000 <= exp))
  /\ (JS.lookup_field "iat" (payload_of (generateRefreshToken cfg userId now))
      = JS.VNum (now / 1000)
      /\ (JS.lookup_field "exp" (payload_of (generateRefreshToken cfg userId now))
          = JS.VNull
          \/ exists exp : Z,
              JS.lookup_field "exp"
                (payload_of (generateRefreshToken cfg userId now))
              = JS.VNum exp /\ now / 1000 <= exp)).
Proof.
  intros Hnow.
  assert (Ha : 0 <= now / 1000 < 2 ^ 53).
  { split; [apply Z.div_pos; lia|].
    apply Z.le_lt_trans with 8640000000000000; [|reflexivity].
    apply Z.le_trans with now; [|lia].
    apply Z.div_le_upper_bound; lia. }
  pose proof (expiry_after_issue (now / 1000) (jwtExpire cfg) Ha) as H1.
  pose proof (expiry_after_issue (now / 1000) (refreshExpire cfg) Ha) as H2.
  split.
  - unfold generateAccessToken, jwt_sign, JS.json_object. cbn [payload_of].
    destruct (JS.add (now / 1000) (getExpirySeconds (jwtExpire cfg))) as [e|];
      destruct (JS.lookup_field "id" user), (JS.lookup_field "email" user),
        (JS.lookup_field "role" user); cbn;
        (split; [reflexivity|]);
        first [left; reflexivity | right; exists e; split; [reflexivity|exact H1]].
  - unfold generateRefreshToken, jwt_sign, JS.json_object. cbn [payload_of].
    destruct (JS.add (now / 1000) (getExpirySeconds (refreshExpire cfg))) as [e|];
      destruct userId; cbn;
        (split; [reflexivity|]);
        first [left; reflexivity | right; exists e; split; [reflexivity|exact H2]].
Qed.

(** X5. A refresh token issued at [now] for any subject value carries the
    double [exp = now/1000 + lifetime].  When that is a number, the token
    verifies at every time whose clock second is below it, giving back the
    subject as JSON carries it, and is refused from that second on; when
    it is [Infinity], the token is refused at every time. *)
Theorem refresh_token_round_trip (userId : JS.value) (now now' : Z) :
  verifyRefreshToken cfg (generateRefreshToken cfg userId now) now'
  = match JS.add (now / 1000) (getExpirySeconds (refreshExpire cfg)) with
    | JS.Finite exp =>
        if now' / 1000 <? exp then Some [("userId", JS.json userId)] else None
    | JS.Infinity => None
    end.
Proof.
  unfold verifyRefreshToken, generateRefreshToken, jwt_sign, jwt_verify.
  rewrite String.eqb_refl. unfold JS.json_object, nbf_ok, exp_ok.
  destruct (JS.add (now / 1000) (getExpirySeconds (refreshExpire cfg))) as [e|];
    destruct userId; cbn; try reflexivity;
    destruct (now' / 1000 <? e); reflexivity.
Qed.

End DurationsMore.

Lemma getExpirySeconds_magnitude_times_unit_witness :
  Chars.contains Chars.is_digit "expires in " = false
  /\ JWTService.getExpirySeconds "expires in 90m, renewable"
     = JS.mul (JS.parseInt10 "90") 60
  /\ JS.mul (JS.parseInt10 "90") 60 = 5400.
Proof.
  split; [reflexivity|].
  pose proof (getExpirySeconds_magnitude_times_unit
                "expires in " "90" ", renewable"
                eq_refl ltac:(discriminate) eq_refl) as [(_ & Hm & _) Hexact].
  split; [exact Hm|].
  exact (Hexact 60 ltac:(lia) ltac:(vm_compute; reflexivity)).
Defined.

Lemma issued_tokens_expire_after_issue_witness :
  JS.lookup_field "iat"
    (JWTService.payload_of
       (JWTService.generateAccessToken Scenario.cfg
          [("id", JS.VStr "k3j9x0q2m")] 5000))
  = JS.VNum 5.
Proof.
  exact (proj1 (proj1 (issued_tokens_expire_after_issue Scenario.cfg
                         [("id", JS.VStr "k3j9x0q2m")] JS.VUndef 5000
                         ltac:(lia)))).
Defined.

(* ================================================================== *)
(** * The request gates *)
(* ================================================================== *)

Section Gates.

Import JWTService Middleware.

Variable cfg : config.

(** X6. [authMiddleware] calls [next()] exactly for a header of the two
    segments [Bearer] and a token that is signed with [jwtSecret] and passes
    the [nbf] and [exp] checks; it then attaches the payload's [id],
    [email], [role] and [accessLevel].  In every other case it answers 401
    and leaves the request as it was. *)
Theorem authMiddleware_admits_only_valid_bearer (req : request) (now : Z) :
  (forall req' : request,
      authMiddleware cfg req now = (req', Next) <->
      exists payload : JS.object,
        authorization req = Some [Opaque "Bearer"; Signed payload (jwtSecret cfg)]
        /\ nbf_ok payload (now / 1000) = true
        /\ exp_ok payload (now / 1000) = true
        /\ req' = {| authorization := authorization req;
                     user := JS.VObj
                               [("id", JS.lookup_field "id" payload);
                                ("email", JS.lookup_field "email" payload);
                                ("role", JS.lookup_field "role" payload);
                                ("accessLevel",
                                 JS.lookup_field "accessLevel" payload)] |})
  /\ (forall (req' : request) (status : Z) (error : string),
         authMiddleware cfg req now = (req', Respond status error) ->
         req' = req /\ status = 401).
Proof.
  split.
  - intros req'. split.
    + unfold authMiddleware, extractTokenFromHeader, token_missing,
        verifyAccessToken, jwt_verify.
      intros Hnext. repeat case_match; simplify_eq.
      match goal with
      | E : String.eqb _ "Bearer" = true |- _ => apply String.eqb_eq in E; subst
      end.
      match goal with
      | E : _ && _ && _ = true |- _ =>
          apply andb_true_iff in E; destruct E as [E Hexp];
          apply andb_true_iff in E; destruct E as [Hkey Hnbf];
          apply String.eqb_eq in Hkey; subst
      end.
      eexists. repeat split; eauto.
    + intros (payload & Hhdr & Hnbf & Hexp & ->).
      unfold authMiddleware. rewrite Hhdr.
      cbn [extractTokenFromHeader String.eqb Ascii.eqb Bool.eqb token_missing].
      unfold verifyAccessToken, jwt_verify.
      rewrite String.eqb_refl, Hnbf, Hexp. reflexivity.
  - intros req' status error.
    unfold authMiddleware. intros Hresp.
    repeat case_match; simplify_eq; split; reflexivity.
Qed.

Lemma find_user_none (p : AuthService.stored_user -> bool)
      (m : AuthService.user_map) :
  (forall u, p u = false) -> AuthService.find_user p m = None.
Proof.
  intros Hp. induction m as [|[k u] m IH]; [reflexivity|].
  cbn. now rewrite Hp.
Qed.

Lemma getUserById_undefined (st : AuthService.state) :
  AuthService.getUserById JS.VUndef st = JS.VUndef.
Proof.
  unfold AuthService.getUserById.
  now rewrite find_user_none.
Qed.

(** X20. For a request that [authMiddleware] admitted on a token made by
    [generateAccessToken], [getProfile] answers 404 "User not found",
    whatever the state: the token's payload has [userId] but no [id], so the
    attached [user.id] is [undefined] and matches no stored user. *)
Theorem getProfile_after_authMiddleware_not_found
        (user : JS.object) (now now' : Z) (req req' : request)
        (st : AuthService.state) :
  authorization req = Some [Opaque "Bearer"; generateAccessToken cfg user now] ->
  authMiddleware cfg req now' = (req', Next) ->
  AuthController.getProfile req' st
  = {| AuthController.status := 404;
       AuthController.json := AuthController.Error (Some "User not found") |}.
Proof.
  intros Hhdr Hauth.
  destruct (generateAccessToken_signed cfg user now)
    as (payload & Htok & _ & Hid & _).
  rewrite Htok in Hhdr.
  unfold authMiddleware in Hauth. rewrite Hhdr in Hauth.
  cbn [extractTokenFromHeader String.eqb Ascii.eqb Bool.eqb token_missing]
    in Hauth.
  unfold verifyAccessToken, jwt_verify in Hauth.
  destruct (_ && _ && _) in Hauth; [|discriminate].
  injection Hauth as <-.
  unfold AuthController.getProfile. cbn. rewrite Hid.
  now rewrite getUserById_undefined.
Qed.

End Gates.

Section GatesAfterLogin.

Import JWTService Middleware AuthService.

Context `{BcryptLib}.
Variable cfg : config.

(** What a successful [login] found and did. *)
Lemma login_ok_inv (request : LoginRequest) (now : Z) (st st' : state)
      (r : LoginResponse) (calls : list call) :
  login cfg request now st = (Ok r, st', calls) ->
  exists u : stored_user,
    Chars.is_empty (login_email request) = false
    /\ Chars.is_empty (login_password request) = false
    /\ fst (RateLimiter.isLocked now (login_email request) (loginAttempts st))
       = false
    /\ map_get (login_email request) (users st) = Some u
    /\ bcrypt_compare (login_password request) (password u) = true
    /\ accessToken r
       = generateAccessToken cfg
           (subject_claims (id u) (email u) (role u) (accessLevel u)) now
    /\ refreshToken r
       = generateRefreshToken cfg
           (JS.VObj [("id", JS.VStr (id u)); ("email", JS.VStr (email u))]) now
    /\ user r = JS.VObj (subject_claims (id u) (email u) (role u) (accessLevel u))
    /\ st' = {| users := users st;
                loginAttempts :=
                  RateLimiter.resetAttempts (login_email request)
                    (snd (RateLimiter.isLocked now (login_email request)
                            (loginAttempts st))) |}.
Proof.
  unfold login.
  destruct (Chars.is_empty (login_email request)) eqn:He; [discriminate|].
  destruct (Chars.is_empty (login_password request)) eqn:Hp; [discriminate|].
  cbn [orb].
  destruct (RateLimiter.isLocked now (login_email request) (loginAttempts st))
    as [[|] attempts]; [discriminate|].
  destruct (map_get (login_email request) (users st)) as [u|]; [|discriminate].
  unfold BcryptService.comparePassword.
  destruct (bcrypt_compare (login_password request) (password u)) eqn:Hc;
    [|discriminate].
  intros E. injection E as <- <- <-. exists u. cbn. repeat split; auto.
Qed.

(** X7. The access token of a successful login whose [exp] claim is a
    number, sent as a bearer token before that expiry second, is admitted
    by [authMiddleware] with the email and role of the stored user (and
    [id] and [accessLevel] [undefined]); [roleMiddleware] then calls
    [next()] exactly when that role is among the required roles, and
    answers 403 otherwise. *)
Theorem login_token_passes_role_gate (request : LoginRequest) (now now' exp : Z)
        (st st' : state) (r : LoginResponse) (calls : list call)
        (previous : JS.value) :
  login cfg request now st = (Ok r, st', calls) ->
  JS.lookup_field "exp" (payload_of (accessToken r)) = JS.VNum exp ->
  now' / 1000 < exp ->
  exists u : stored_user,
    map_get (login_email request) (users st) = Some u
    /\ let req := {| authorization := Some [Opaque "Bearer"; accessToken r];
                    Middleware.user := previous |} in
       let req' := {| authorization := Some [Opaque "Bearer"; accessToken r];
                      Middleware.user :=
                        JS.VObj [("id", JS.VUndef);
                                 ("email", JS.VStr (email u));
                                 ("role", JS.VStr (role u));
                                 ("accessLevel", JS.VUndef)] |} in
       authMiddleware cfg req now' = (req', Next)
       /\ forall requiredRoles : list string,
           roleMiddleware requiredRoles req'
           = if existsb (String.eqb (role u)) requiredRoles
             then Next
             else Respond 403 "Insufficient permissions".
Proof.
  intros Hlogin Hexp Hclock.
  destruct (login_ok_inv _ _ _ _ _ _ Hlogin)
    as (u & _ & _ & _ & Hu & _ & Htok & _).
  exists u. split; [exact Hu|]. cbv zeta. split.
  - unfold authMiddleware.
    cbn [authorization extractTokenFromHeader String.eqb Ascii.eqb Bool.eqb].
    rewrite Htok in Hexp |- *.
    assert (Hmissing : token_missing
                         (Some (generateAccessToken cfg
                                  (subject_claims (id u) (email u) (role u)
                                     (accessLevel u)) now)) = false)
      by reflexivity.
    rewrite Hmissing, verify_issued_access_token.
    rewrite issued_access_token_exp in Hexp.
    destruct (JS.add (now / 1000) (getExpirySeconds (jwtExpire cfg))) as [x|];
      [|discriminate Hexp].
    cbn [JS.of_number] in Hexp. injection Hexp as ->.
    destruct (Z.ltb_spec (now' / 1000) exp); [|lia].
    reflexivity.
  - intros requiredRoles. unfold roleMiddleware. cbn.
    destruct (existsb (String.eqb (role u)) requiredRoles); reflexivity.
Qed.

End GatesAfterLogin.

Lemma getProfile_after_authMiddleware_not_found_witness :
  match fst (fst (AuthService.login (H := reference_bcrypt) Scenario.cfg
                    (Scenario.credentials "a@x.com" "Str0ng!Pass123") 1000
                    Scenario.stored)) with
  | Ok response =>
      let req := {| Middleware.authorization :=
                      Some [JWTService.Opaque "Bearer";
                            AuthService.accessToken response];
                    Middleware.user := JS.VUndef |} in
      snd (Middleware.authMiddleware Scenario.cfg req 2000) = Middleware.Next
      /\ AuthService.map_has "a@x.com" (AuthService.users Scenario.stored)
         = true
      /\ AuthController.getProfile
           (fst (Middleware.authMiddleware Scenario.cfg req 2000))
           Scenario.stored
         = {| AuthController.status := 404;
              AuthController.json := AuthController.Error (Some "User not found") |}
  | Throw _ => False
  end.
Proof.
  vm_compute. split; [reflexivity|]. split; [reflexivity|].
  exact (getProfile_after_authMiddleware_not_found Scenario.cfg
           (JWTService.subject_claims "k3j9x0q2m" "a@x.com" "USUARIO" 1)
           1000 2000
           {| Middleware.authorization :=
                Some [JWTService.Opaque "Bearer";
                      JWTService.generateAccessToken Scenario.cfg
                        (JWTService.subject_claims "k3j9x0q2m" "a@x.com"
                           "USUARIO" 1) 1000];
              Middleware.user := JS.VUndef |}
           _ Scenario.stored eq_refl eq_refl).
Defined.

Lemma login_token_passes_role_gate_witness :
  match fst (fst (AuthService.login (H := reference_bcrypt) Scenario.cfg
                    (Scenario.credentials "a@x.com" "Str0ng!Pass123") 1000
                    Scenario.stored)) with
  | Ok response =>
      let req := {| Middleware.authorization :=
                      Some [JWTService.Opaque "Bearer";
                            AuthService.accessToken response];
                    Middleware.user := JS.VUndef |} in
      let req' := fst (Middleware.authMiddleware Scenario.cfg req 2000) in
      JS.lookup_field "exp"
        (JWTService.payload_of (AuthService.accessToken response))
      = JS.VNum 86401
      /\ snd (Middleware.authMiddleware Scenario.cfg req 2000) = Middleware.Next
      /\ Middleware.roleMiddleware ["USUARIO"; "OPERADOR"] req' = Middleware.Next
      /\ Middleware.roleMiddleware ["ADMIN"] req'
         = Middleware.Respond 403 "Insufficient permissions"
  | Throw _ => False
  end.
Proof.
  destruct (AuthService.login _ _ 1000 _) as [[[r|msg] st'] calls] eqn:Hlogin;
    cbn [fst]; [|vm_compute in Hlogin; discriminate Hlogin].
  assert (Hexp : JS.lookup_field "exp"
                   (JWTService.payload_of (AuthService.accessToken r))
                 = JS.VNum 86401).
  { vm_compute in Hlogin. injection Hlogin as <- _ _. reflexivity. }
  assert (Hclock : 2000 / 1000 < 86401) by (vm_compute; reflexivity).
  destruct (login_token_passes_role_gate (H := reference_bcrypt) _ _ _ 2000
              _ _ _ _ _ JS.VUndef Hlogin Hexp Hclock)
    as (u & Hu & Hauth & Hrole).
  vm_compute in Hu. injection Hu as <-.
  cbv zeta. rewrite Hauth. cbn [fst snd].
  split; [exact Hexp|]. split; [reflexivity|].
  split; [exact (Hrole ["USUARIO"; "OPERADOR"])|exact (Hrole ["ADMIN"])].
Defined.

(* ================================================================== *)
(** * The rate limiter as a state machine *)
(* ================================================================== *)

Section LimiterMachine.

Import RateLimiter Machine.

Implicit Types (m : gmap string attempt) (id : string) (c : limiter_call).

Lemma isLocked_snd_lookup m id id' (now : Z) :
  id <> id' -> snd (isLocked now id m) !! id' = m !! id'.
Proof.
  intros Hne. unfold isLocked. destruct (m !! id) as [r|]; [|reflexivity].
  cbv zeta. destruct (lockoutDuration <? now - timestamp r); [|reflexivity].
  cbn [snd]. now apply lookup_delete_ne.
Qed.

Lemma recordAttempt_lookup_ne m id id' (now : Z) :
  id <> id' -> recordAttempt now id m !! id' = m !! id'.
Proof.
  intros Hne. unfold recordAttempt. destruct (m !! id) as [r|]; cbv zeta.
  - destruct (lockoutDuration <? now - timestamp r); now apply lookup_insert_ne.
  - now apply lookup_insert_ne.
Qed.

Lemma limiter_step_lookup_ne m c id' :
  call_identifier c <> id' -> limiter_step m c !! id' = m !! id'.
Proof.
  destruct c as [now id|now id|id]; cbn [call_identifier limiter_step]; intros Hne.
  - now apply isLocked_snd_lookup.
  - now apply recordAttempt_lookup_ne.
  - unfold resetAttempts. now apply lookup_delete_ne.
Qed.

(** The answer of [isLocked] for an identifier depends on the entry of
    that identifier only. *)
Lemma isLocked_fst_lookup m m' id (now : Z) :
  m !! id = m' !! id -> fst (isLocked now id m) = fst (isLocked now id m').
Proof.
  intros E. unfold isLocked. rewrite <- E.
  destruct (m !! id) as [r|]; [|reflexivity].
  cbv zeta. destruct (lockoutDuration <? now - timestamp r); reflexivity.
Qed.

(** X8. Calls on the rate limiter for other identifiers, in any number and
    order, leave the entry of an identifier and the answer of [isLocked]
    for it unchanged. *)
Theorem limiter_calls_are_per_identifier (calls : list limiter_call) m id :
  Forall (fun c => call_identifier c <> id) calls ->
  limiter_run calls m !! id = m !! id
  /\ forall now : Z,
      fst (isLocked now id (limiter_run calls m)) = fst (isLocked now id m).
Proof.
  intros Hother.
  assert (Hsame : limiter_run calls m !! id = m !! id).
  { revert m. induction calls as [|c calls IH]; intros m; [reflexivity|].
    apply Forall_cons_iff in Hother. destruct Hother as [Hc Hother].
    cbn [limiter_run fold_left]. fold (limiter_run calls (limiter_step m c)).
    rewrite (IH Hother). now apply limiter_step_lookup_ne. }
  split; [exact Hsame|].
  intros now. now apply isLocked_fst_lookup.
Qed.

Lemma recorded_cons id c (calls : list limiter_call) :
  recorded id (c :: calls)
  = (if records id c then 1 else 0) + recorded id calls.
Proof.
  unfold recorded. cbn [List.filter]. destruct (records id c); cbn [List.length]; lia.
Qed.

Lemma recorded_nonneg id (calls : list limiter_call) : 0 <= recorded id calls.
Proof. unfold recorded. lia. Qed.

(** One call keeps every count of [id] between 1 and the number of
    failures recorded for [id] so far. *)
Lemma limiter_step_count m c id (n : Z) :
  0 <= n ->
  (forall r, m !! id = Some r -> 1 <= count r <= n) ->
  forall r, limiter_step m c !! id = Some r ->
            1 <= count r <= n + (if records id c then 1 else 0).
Proof.
  intros Hn Hinv r.
  destruct c as [now id0|now id0|id0]; cbn [limiter_step records].
  - destruct (decide (id0 = id)) as [->|Hne].
    + unfold isLocked. destruct (m !! id) as [r0|] eqn:E; cbv zeta.
      * destruct (lockoutDuration <? now - timestamp r0); cbn [snd].
        -- rewrite lookup_delete_eq. discriminate.
        -- rewrite E. intros [= <-]. specialize (Hinv r0 eq_refl). lia.
      * cbn [snd]. rewrite E. discriminate.
    + rewrite isLocked_snd_lookup by exact Hne. intros Hr.
      specialize (Hinv r Hr). lia.
  - destruct (String.eqb_spec id id0) as [<-|Hne].
    + destruct (recordAttempt_lookup m id now) as (k & Hk & Hfrom).
      rewrite Hk. intros [= <-]. cbn [count].
      destruct Hfrom as [-> | (r0 & Hr0 & ->)]; [lia|].
      specialize (Hinv r0 Hr0). lia.
    + rewrite recordAttempt_lookup_ne by congruence. intros Hr.
      specialize (Hinv r Hr). lia.
  - unfold resetAttempts. destruct (decide (id0 = id)) as [->|Hne].
    + rewrite lookup_delete_eq. discriminate.
    + rewrite lookup_delete_ne by exact Hne. intros Hr.
      specialize (Hinv r Hr). lia.
Qed.

Lemma limiter_run_count (calls : list limiter_call) id :
  forall m (n : Z),
    0 <= n ->
    (forall r, m !! id = Some r -> 1 <= count r <= n) ->
    forall r, limiter_run calls m !! id = Some r ->
              1 <= count r <= n + recorded id calls.
Proof.
  induction calls as [|c calls IH]; intros m n Hn Hinv r.
  - cbn. intros Hr. specialize (Hinv r Hr). unfold recorded. cbn. lia.
  - cbn [limiter_run fold_left]. fold (limiter_run calls (limiter_step m c)).
    intros Hr. rewrite recorded_cons.
    pose proof (IH (limiter_step m c) (n + (if records id c then 1 else 0))) as IH'.
    specialize (IH' ltac:(destruct (records id c); lia)
                    (limiter_step_count m c id n Hn Hinv) r Hr).
    lia.
Qed.

(** X9. Starting from the empty map, after any sequence of [isLocked],
    [recordAttempt] and [resetAttempts] calls, a stored count is at least 1
    and at most the number of [recordAttempt] calls made for that
    identifier; so an identifier with fewer than [maxAttempts] recorded
    failures is never locked. *)
Theorem counts_bounded_by_recorded_failures (calls : list limiter_call) id :
  (forall r, limiter_run calls ∅ !! id = Some r ->
             1 <= count r <= recorded id calls)
  /\ (recorded id calls < maxAttempts ->
      forall now : Z, fst (isLocked now id (limiter_run calls ∅)) = false).
Proof.
  assert (Hbound : forall r, limiter_run calls ∅ !! id = Some r ->
                             1 <= count r <= recorded id calls).
  { intros r Hr.
    pose proof (limiter_run_count calls id ∅ 0 ltac:(lia)) as Hc.
    apply (Hc ltac:(intros r0 Hr0; rewrite lookup_empty in Hr0; discriminate) r Hr). }
  split; [exact Hbound|].
  intros Hfew now. unfold isLocked.
  destruct (limiter_run calls ∅ !! id) as [r|] eqn:E; [|reflexivity].
  cbv zeta. destruct (lockoutDuration <? now - timestamp r); [reflexivity|].
  cbn [fst]. apply Z.leb_gt. specialize (Hbound r eq_refl). lia.
Qed.

End LimiterMachine.

Lemma limiter_calls_are_per_identifier_witness :
  let m := RateLimiter.recordAttempts [0; 1; 2; 3; 4] "a@x.com" ∅ in
  let calls := [Machine.RecordAttempt 5 "b@x.com";
                Machine.ResetAttempts "c@x.com";
                Machine.IsLocked 6 "b@x.com"] in
  fst (RateLimiter.isLocked 7 "a@x.com" (Machine.limiter_run calls m)) = true.
Proof.
  cbv zeta.
  rewrite (proj2 (limiter_calls_are_per_identifier
                    [Machine.RecordAttempt 5 "b@x.com";
                     Machine.ResetAttempts "c@x.com";
                     Machine.IsLocked 6 "b@x.com"]
                    (RateLimiter.recordAttempts [0; 1; 2; 3; 4] "a@x.com" ∅)
                    "a@x.com"
                    ltac:(repeat constructor; discriminate)) 7).
  vm_compute. reflexivity.
Defined.

Lemma counts_bounded_by_recorded_failures_witness :
  let calls := [Machine.RecordAttempt 0 "a@x.com";
                Machine.RecordAttempt 1 "a@x.com";
                Machine.RecordAttempt 2 "b@x.com";
                Machine.RecordAttempt 3 "a@x.com";
                Machine.RecordAttempt 4 "a@x.com"] in
  Machine.recorded "a@x.com" calls < RateLimiter.maxAttempts
  /\ fst (RateLimiter.isLocked 5 "a@x.com" (Machine.limiter_run calls ∅)) = false.
Proof.
  cbv zeta.
  assert (Hfew : Machine.recorded "a@x.com"
                   [Machine.RecordAttempt 0 "a@x.com";
                    Machine.RecordAttempt 1 "a@x.com";
                    Machine.RecordAttempt 2 "b@x.com";
                    Machine.RecordAttempt 3 "a@x.com";
                    Machine.RecordAttempt 4 "a@x.com"] < RateLimiter.maxAttempts)
    by (vm_compute; reflexivity).
  split; [exact Hfew|].
  exact (proj2 (counts_bounded_by_recorded_failures _ "a@x.com") Hfew 5).
Defined.

(* ================================================================== *)
(** * Login and the throttle *)
(* ================================================================== *)

Section LoginThrottle.

Import AuthService.

Context `{BcryptLib}.
Variable cfg : JWTService.config.

(** X10. While an email is locked, any number of logins for it (with a
    password present) fail with the lockout error and leave the state
    exactly as it was: they do not refresh the timestamp.  So the lock ends
    [lockoutDuration] after the last recorded failure, however often a
    login was tried in between. *)
Theorem lock_is_not_extended_by_attempts (st : state) (e : string)
        (r : RateLimiter.attempt) (tries : list (string * Z)) :
  loginAttempts st !! e = Some r ->
  RateLimiter.maxAttempts <= RateLimiter.count r ->
  Chars.is_empty e = false ->
  Forall (fun try => Chars.is_empty (fst try) = false
                     /\ snd try - RateLimiter.timestamp r
                        <= RateLimiter.lockoutDuration) tries ->
  logins cfg (attempts_for e tries) st
  = (map (fun _ => Throw msg_locked) tries, st)
  /\ forall now : Z,
      RateLimiter.lockoutDuration < now - RateLimiter.timestamp r ->
      fst (RateLimiter.isLocked now e
             (loginAttempts (snd (logins cfg (attempts_for e tries) st))))
      = false.
Proof.
  intros Hentry Hcount He Htries.
  assert (Hrun : logins cfg (attempts_for e tries) st
                 = (map (fun _ => Throw msg_locked) tries, st)).
  { induction tries as [|[p t] tries IH]; [reflexivity|].
    apply Forall_cons_iff in Htries. destruct Htries as [[Hp Ht] Htries].
    cbn [fst snd] in Hp, Ht.
    cbn [attempts_for map logins fst snd]. fold (attempts_for e tries).
    rewrite (login_locked cfg {| login_email := e; login_password := p |} t st
               He Hp).
    - rewrite (IH Htries). reflexivity.
    - cbn [login_email].
      rewrite (isLocked_live _ e r t Hentry Ht). cbn [fst].
      apply Z.leb_le. exact Hcount. }
  split; [exact Hrun|].
  intros now Hexp. rewrite Hrun. cbn [snd].
  now rewrite (isLocked_expired _ e r now Hentry Hexp).
Qed.

(** X14. A successful login removes the failure entry of its email and
    changes nothing else: the [users] map and the entries of other emails
    stay, the email is not locked at any time afterwards, and the next
    recorded failure counts 1. *)
Theorem successful_login_clears_failures (request : LoginRequest) (now : Z)
        (st st' : state) (r : LoginResponse) (calls : list call) :
  login cfg request now st = (Ok r, st', calls) ->
  loginAttempts st' !! login_email request = None
  /\ users st' = users st
  /\ (forall id : string,
         id <> login_email request ->
         loginAttempts st' !! id = loginAttempts st !! id)
  /\ (forall now' : Z,
         fst (RateLimiter.isLocked now' (login_email request) (loginAttempts st'))
         = false)
  /\ (forall now' : Z,
         RateLimiter.recordAttempt now' (login_email request) (loginAttempts st')
           !! login_email request
         = Some {| RateLimiter.count := 1; RateLimiter.timestamp := now' |}).
Proof.
  intros Hlogin.
  destruct (login_ok_inv cfg _ _ _ _ _ _ Hlogin)
    as (u & _ & _ & _ & _ & _ & _ & _ & _ & ->).
  cbn [loginAttempts users]. unfold RateLimiter.resetAttempts.
  assert (Hother : forall id : string,
             id <> login_email request ->
             delete (login_email request)
               (snd (RateLimiter.isLocked now (login_email request)
                       (loginAttempts st))) !! id
             = loginAttempts st !! id).
  { intros id Hne. rewrite lookup_delete_ne by congruence.
    apply isLocked_snd_lookup. congruence. }
  remember (delete (login_email request)
              (snd (RateLimiter.isLocked now (login_email request)
                      (loginAttempts st)))) as cleared eqn:Hcleared.
  assert (Hnone : cleared !! login_email request = None)
    by (subst cleared; apply lookup_delete_eq).
  split; [exact Hnone|]. split; [reflexivity|]. split; [|split].
  - exact Hother.
  - intros now'. unfold RateLimiter.isLocked. now rewrite Hnone.
  - intros now'. rewrite (recordAttempt_fresh _ _ now' Hnone).
    apply lookup_insert_eq.
Qed.

End LoginThrottle.

Lemma lock_is_not_extended_by_attempts_witness :
  AuthService.logins (H := reference_bcrypt) Scenario.cfg
    (AuthService.attempts_for "a@x.com"
       [("Str0ng!Pass123", 6000); ("Str0ng!Pass123", 905000)])
    Scenario.after_failures
  = ([Throw AuthService.msg_locked; Throw AuthService.msg_locked],
     Scenario.after_failures)
  /\ fst (RateLimiter.isLocked 905001 "a@x.com"
            (AuthService.loginAttempts
               (snd (AuthService.logins (H := reference_bcrypt) Scenario.cfg
                       (AuthService.attempts_for "a@x.com"
                          [("Str0ng!Pass123", 6000); ("Str0ng!Pass123", 905000)])
                       Scenario.after_failures))))
     = false.
Proof.
  destruct (lock_is_not_extended_by_attempts (H := reference_bcrypt) Scenario.cfg
              Scenario.after_failures "a@x.com"
              {| RateLimiter.count := 5; RateLimiter.timestamp := 5000 |}
              [("Str0ng!Pass123", 6000); ("Str0ng!Pass123", 905000)])
    as [Hrun Hfree].
  - vm_compute. reflexivity.
  - vm_compute. discriminate.
  - reflexivity.
  - repeat constructor; vm_compute; discriminate.
  - split; [exact Hrun|]. apply Hfree. vm_compute. reflexivity.
Defined.

Lemma successful_login_clears_failures_witness :
  let st := snd (AuthService.logins (H := reference_bcrypt) Scenario.cfg
                   (AuthService.attempts_for "a@x.com"
                      [("wrong", 1000); ("wrong", 2000); ("wrong", 3000);
                       ("wrong", 4000)])
                   Scenario.stored) in
  AuthService.loginAttempts st !! "a@x.com"
  = Some {| RateLimiter.count := 4; RateLimiter.timestamp := 4000 |}
  /\ AuthService.loginAttempts
       (snd (fst (AuthService.login (H := reference_bcrypt) Scenario.cfg
                    (Scenario.credentials "a@x.com" "Str0ng!Pass123") 5000 st)))
       !! "a@x.com" = None.
Proof.
  cbv zeta. split; [vm_compute; reflexivity|].
  destruct (AuthService.login _ _ 5000 _) as [[[r|msg] st'] calls] eqn:Hlogin.
  - exact (proj1 (successful_login_clears_failures (H := reference_bcrypt)
                    _ _ _ _ _ _ _ Hlogin)).
  - vm_compute in Hlogin. discriminate Hlogin.
Defined.

(* ================================================================== *)
(** * The user store *)
(* ================================================================== *)

Section UserStore.

Import AuthService Machine.

Context `{BcryptLib} {engine : Engine}.
Variable cfg : JWTService.config.

(** [register] never changes the state. *)
Lemma register_state_unchanged (request : RegisterRequest)
      (rnd_id salt : string) (now : Z) (st : state) :
  snd (register request rnd_id salt now st) = st.
Proof.
  unfold register.
  destruct (_ || _ || _); [reflexivity|].
  destruct (map_has _ _); [reflexivity|].
  destruct (BcryptService.hashPassword _ _); reflexivity.
Qed.

Lemma entries_updated_refl (f : stored_user -> stored_user) (m : user_map) :
  entries_updated f m m.
Proof. induction m; constructor; auto. Qed.

Lemma update_first_find (p : stored_user -> bool)
      (f : stored_user -> stored_user) (m : user_map) :
  match find_user p m with
  | Some u =>
      exists m', update_first p f m = Some (f u, m')
                 /\ entries_updated f m m'
                 /\ (p (f u) = true -> find_user p m' = Some (f u))
  | None => update_first p f m = None
  end.
Proof.
  induction m as [|[k u] m IH]; [reflexivity|].
  cbn [find_user update_first]. destruct (p u) eqn:Hp.
  - eexists. split; [reflexivity|]. split.
    + constructor; [cbn; auto|apply entries_updated_refl].
    + intros Hpf. cbn. now rewrite Hpf.
  - destruct (find_user p m) as [u0|].
    + destruct IH as (m' & -> & Hupd & Hfind).
      eexists. split; [reflexivity|]. split.
      * constructor; [cbn; auto|exact Hupd].
      * intros Hpf. cbn. rewrite Hp. now apply Hfind.
    + now rewrite IH.
Qed.


Lemma entries_updated_get (f : stored_user -> stored_user) (m m' : user_map) :
  entries_updated f m m' ->
  forall (k : string) (u : stored_user),
    map_get k m = Some u ->
    exists u', map_get k m' = Some u' /\ (u' = u \/ u' = f u).
Proof.
  induction 1 as [|[k0 u0] [k1 u1] m m' [Hk Hu] _ IH]; intros k u; [discriminate|].
  cbn in Hk, Hu. subst k1. cbn [map_get].
  destruct (String.eqb k k0).
  - intros [= <-]. exists u1. split; [reflexivity|].
    destruct Hu as [-> | ->]; auto.
  - apply IH.
Qed.


(** The [users] part of one service call. *)
Lemma service_step_users (st : state) (c : service_call) :
  users (service_step cfg st c) = users st
  \/ (exists f, (forall u, same_identity u (f u))
                /\ entries_updated f (users st) (users (service_step cfg st c))).
Proof.
  destruct c as [request rnd_id salt now|request now|t now|userId a|userId r];
    cbn [service_step].
  - left. now rewrite register_state_unchanged.
  - left. unfold login.
    destruct (_ || _); [reflexivity|].
    destruct (RateLimiter.isLocked _ _ _) as [[|] attempts]; [reflexivity|].
    destruct (map_get _ _) as [u|]; [|reflexivity].
    unfold BcryptService.comparePassword.
    destruct (bcrypt_compare _ _); reflexivity.
  - now left.
  - unfold updateUserAccessLevel.
    pose proof (update_first_find (id_is userId) (set_accessLevel a) (users st))
      as Hupd.
    destruct (find_user (id_is userId) (users st)) as [u|].
    + right. destruct Hupd as (m' & -> & Hent & _).
      exists (set_accessLevel a). split; [|exact Hent].
      intros u0. repeat split.
    + left. now rewrite Hupd.
  - unfold updateUserRole.
    pose proof (update_first_find (id_is userId) (set_role r) (users st)) as Hupd.
    destruct (find_user (id_is userId) (users st)) as [u|].
    + right. destruct Hupd as (m' & -> & Hent & _).
      exists (set_role r). split; [|exact Hent].
      intros u0. repeat split.
    + left. now rewrite Hupd.
Qed.


(** From the initial state no call stores a user. *)
Lemma service_run_users_empty (calls : list service_call) (st : state) :
  users st = [] -> users (service_run cfg calls st) = [].
Proof.
  revert st. induction calls as [|c calls IH]; intros st Hst; [exact Hst|].
  cbn [service_run fold_left]. fold (service_run cfg calls (service_step cfg st c)).
  apply IH.
  destruct (service_step_users st c) as [-> | (f & _ & Hent)]; [exact Hst|].
  rewrite Hst in Hent. now inversion Hent.
Qed.

(** X11. [register] returns for no request: the missing-field,
    existing-email and weak-password errors apart, it ends in the engine's
    error at line 60, and in every case the state is as it was.  So from
    the initial state, through any sequence of register, login, refresh
    and update calls, [users] stays empty and every login throws. *)
Theorem register_never_stores :
  (forall (request : RegisterRequest) (rnd_id salt : string) (now : Z)
          (st : state),
      register request rnd_id salt now st
      = (Throw
           (if Chars.is_empty (reg_email request)
               || Chars.is_empty (reg_password request)
               || Chars.is_empty (reg_name request)
            then msg_required_register
            else if map_has (reg_email request) (users st)
            then msg_exists
            else if BcryptService.valid
                      (BcryptService.validatePassword (reg_password request))
            then line60_error
            else ("Invalid password: "
                  ++ BcryptService.join ", "
                       (BcryptService.errors
                          (BcryptService.validatePassword
                             (reg_password request))))%string),
         st))
  /\ (forall calls : list service_call,
         users (service_run cfg calls initial) = [])
  /\ (forall (calls : list service_call) (request : LoginRequest) (now : Z),
         is_throw (fst (fst (login cfg request now
                               (service_run cfg calls initial)))) = true).
Proof.
  split; [|split].
  - intros request rnd_id salt now st. unfold register.
    destruct (_ || _ || _); [reflexivity|].
    destruct (map_has _ _); [reflexivity|].
    unfold BcryptService.hashPassword.
    destruct (BcryptService.valid _); reflexivity.
  - intros calls. now apply service_run_users_empty.
  - intros calls request now. unfold login.
    rewrite (service_run_users_empty calls initial eq_refl).
    destruct (_ || _); [reflexivity|].
    destruct (RateLimiter.isLocked _ _ _) as [[|] attempts]; reflexivity.
Qed.


Lemma same_identity_refl (u : stored_user) : same_identity u u.
Proof. repeat split. Qed.

Lemma same_identity_trans (u u' u'' : stored_user) :
  same_identity u u' -> same_identity u' u'' -> same_identity u u''.
Proof.
  unfold same_identity. intros (? & ? & ? & ? & ?) (? & ? & ? & ? & ?).
  repeat split; congruence.
Qed.

(** X16. No service call removes a user or changes a stored id, email,
    name, creation time or password hash: whoever is stored under an email
    stays stored under it with these fields, through any sequence of
    calls.  ([register] writes nothing, [login] and the refresh only read
    [users], the updates set [accessLevel] or [role] of one user.) *)
Theorem stored_identity_persists (calls : list service_call) (st : state)
        (e : string) (u : stored_user) :
  map_get e (users st) = Some u ->
  exists u' : stored_user,
    map_get e (users (service_run cfg calls st)) = Some u'
    /\ same_identity u u'.
Proof.
  revert st u. induction calls as [|c calls IH]; intros st u Hu.
  - exists u. split; [exact Hu|apply same_identity_refl].
  - cbn [service_run fold_left]. fold (service_run cfg calls (service_step cfg st c)).
    assert (Hstep : exists u1, map_get e (users (service_step cfg st c)) = Some u1
                               /\ same_identity u u1).
    { destruct (service_step_users st c) as [-> | (f & Hf & Hent)].
      - exists u. split; [exact Hu|apply same_identity_refl].
      - destruct (entries_updated_get f _ _ Hent e u Hu) as (u1 & Hu1 & [-> | ->]).
        + exists u. split; [exact Hu1|apply same_identity_refl].
        + exists (f u). split; [exact Hu1|apply Hf]. }
    destruct Hstep as (u1 & Hu1 & Hsame1).
    destruct (IH _ u1 Hu1) as (u' & Hu' & Hsame').
    exists u'. split; [exact Hu'|].
    exact (same_identity_trans _ _ _ Hsame1 Hsame').
Qed.

End UserStore.

(* ================================================================== *)
(** * Profile lookups and updates *)
(* ================================================================== *)

Section Profiles.

Import AuthService.

Lemma getUserById_find (userId : JS.value) (st : state) :
  getUserById userId st
  = match find_user (id_is userId) (users st) with
    | Some u => userWithoutPassword u
    | None => JS.VUndef
    end.
Proof. reflexivity. Qed.

(** X17. [updateUserAccessLevel] and [updateUserRole] change the first
    user with the given id, return it without the password, and a
    following [getUserById] with that id returns the same value, with the
    new access level or role in it; when no user has the id they throw
    "User not found" and leave the state unchanged. *)
Theorem update_then_get (userId : JS.value) (level : Z) (newRole : string)
        (st : state) :
  match find_user (id_is userId) (users st) with
  | Some u =>
      (fst (updateUserAccessLevel userId level st)
       = Ok (userWithoutPassword (set_accessLevel level u))
       /\ getUserById userId (snd (updateUserAccessLevel userId level st))
          = userWithoutPassword (set_accessLevel level u)
       /\ JS.get "accessLevel" (userWithoutPassword (set_accessLevel level u))
          = JS.VNum level)
      /\ (fst (updateUserRole userId newRole st)
          = Ok (userWithoutPassword (set_role newRole u))
          /\ getUserById userId (snd (updateUserRole userId newRole st))
             = userWithoutPassword (set_role newRole u)
          /\ JS.get "role" (userWithoutPassword (set_role newRole u))
             = JS.VStr newRole)
  | None =>
      updateUserAccessLevel userId level st = (Throw msg_not_found, st)
      /\ updateUserRole userId newRole st = (Throw msg_not_found, st)
  end.
Proof.
  pose proof (update_first_find (id_is userId) (set_accessLevel level) (users st))
    as Hlevel.
  pose proof (update_first_find (id_is userId) (set_role newRole) (users st))
    as Hrole.
  unfold updateUserAccessLevel, updateUserRole.
  destruct (find_user (id_is userId) (users st)) as [u|] eqn:Hfind.
  - assert (Hid : id_is userId u = true).
    { clear -Hfind. induction (users st) as [|[k x] m IH]; [discriminate|].
      cbn in Hfind. destruct (id_is userId x) eqn:E; [|now apply IH].
      now injection Hfind as <-. }
    destruct Hlevel as (m1 & -> & _ & Hfind1).
    destruct Hrole as (m2 & -> & _ & Hfind2).
    cbn [fst snd]. rewrite !getUserById_find. cbn [users].
    rewrite (Hfind1 Hid), (Hfind2 Hid). repeat split; reflexivity.
  - rewrite Hlevel, Hrole. split; reflexivity.
Qed.

End Profiles.

Lemma stored_identity_persists_witness :
  exists u' : AuthService.stored_user,
    AuthService.map_get "a@x.com"
      (AuthService.users
         (Machine.service_run (H := reference_bcrypt) (H0 := reference_engine)
            Scenario.cfg
            [Machine.UpdateRole (JS.VStr "k3j9x0q2m") "ADMIN";
             Machine.Login (Scenario.credentials "a@x.com" "wrong") 1000;
             Machine.Register Scenario.ana "zzzzzzzzz" "pepper" 2000]
            Scenario.stored))
    = Some u'
    /\ AuthService.password u' = "salt$Str0ng!Pass123".
Proof.
  destruct (stored_identity_persists (H := reference_bcrypt)
              (engine := reference_engine) Scenario.cfg
              [Machine.UpdateRole (JS.VStr "k3j9x0q2m") "ADMIN";
               Machine.Login (Scenario.credentials "a@x.com" "wrong") 1000;
               Machine.Register Scenario.ana "zzzzzzzzz" "pepper" 2000]
              Scenario.stored "a@x.com" Scenario.ana_record eq_refl)
    as (u' & Hu' & (_ & _ & _ & _ & Hpw)).
  exists u'. split; [exact Hu'|exact Hpw].
Defined.

(* ================================================================== *)
(** * Input validators *)
(* ================================================================== *)

Section ValidatorFacts.

Import Validators.

Lemma append_nil_r (s : string) : (s ++ "")%string = s.
Proof.
  induction s as [|c s IH]; [reflexivity|].
  change (String c s ++ "")%string with (String c (s ++ "")%string).
  now rewrite IH.
Qed.

Lemma append_cons (c : ascii) (a b : string) :
  (String c a ++ b)%string = String c (a ++ b)%string.
Proof. reflexivity. Qed.

(** [[cls]+] followed by [k] matches the strings that split into a
    non-empty run of the class and a rest that [k] matches. *)
Lemma plus_then_spec (cls : ascii -> bool) (k : string -> bool) (s : string) :
  plus_then cls k s = true <->
  exists a rest : string,
    s = (a ++ rest)%string /\ a <> EmptyString
    /\ Chars.all_in cls a = true /\ k rest = true.
Proof.
  split.
  - induction s as [|c s IH]; [discriminate|].
    cbn [plus_then]. intros E. apply andb_true_iff in E. destruct E as [Hc E].
    apply orb_true_iff in E. destruct E as [E | E].
    + destruct (IH E) as (a & rest & -> & _ & Ha & Hk).
      exists (String c a), rest. repeat split; [discriminate| |exact Hk].
      cbn [Chars.all_in]. now rewrite Hc.
    + exists (String c EmptyString), s. repeat split; [discriminate| |exact E].
      cbn [Chars.all_in]. now rewrite Hc.
  - intros (a & rest & -> & Hne & Ha & Hk).
    induction a as [|c a IH]; [contradiction|].
    cbn [Chars.all_in] in Ha. apply andb_true_iff in Ha. destruct Ha as [Hc Ha].
    rewrite append_cons. cbn [plus_then]. rewrite Hc. cbn [andb].
    destruct a as [|d a].
    + change ("" ++ rest)%string with rest. rewrite Hk. apply orb_true_r.
    + rewrite IH; [reflexivity|discriminate|exact Ha].
Qed.

Lemma literal_then_spec (x : ascii) (k : string -> bool) (s : string) :
  literal_then x k s = true <->
  exists rest : string, s = String x rest /\ k rest = true.
Proof.
  destruct s as [|c s]; cbn [literal_then].
  - split; [discriminate|]. intros (rest & E & _). discriminate E.
  - rewrite andb_true_iff. split.
    + intros [Hc Hk]. apply Ascii.eqb_eq in Hc. subst c. now exists s.
    + intros (rest & E & Hk). injection E as -> ->.
      split; [apply Ascii.eqb_refl|exact Hk].
Qed.

Lemma emailRegex_test_spec (s : string) :
  emailRegex_test s = true <->
  exists a b c : string,
    s = (a ++ String "@" (b ++ String "." c))%string
    /\ a <> EmptyString /\ b <> EmptyString /\ c <> EmptyString
    /\ Chars.all_in is_plain a = true
    /\ Chars.all_in is_plain b = true
    /\ Chars.all_in is_plain c = true.
Proof.
  unfold emailRegex_test. split.
  - intros E.
    apply plus_then_spec in E. destruct E as (a & r1 & -> & Ha & Hpa & E).
    apply literal_then_spec in E. destruct E as (r2 & -> & E).
    apply plus_then_spec in E. destruct E as (b & r3 & -> & Hb & Hpb & E).
    apply literal_then_spec in E. destruct E as (r4 & -> & E).
    apply plus_then_spec in E. destruct E as (c & r5 & -> & Hc & Hpc & E).
    destruct r5; [|discriminate E]. rewrite append_nil_r.
    exists a, b, c. repeat split; assumption.
  - intros (a & b & c & -> & Ha & Hb & Hc & Hpa & Hpb & Hpc).
    apply plus_then_spec. exists a, (String "@" (b ++ String "." c)).
    repeat split; try assumption.
    apply literal_then_spec. eexists. split; [reflexivity|].
    apply plus_then_spec. exists b, (String "." c).
    repeat split; try assumption.
    apply literal_then_spec. eexists. split; [reflexivity|].
    apply plus_then_spec. exists c, EmptyString.
    repeat split; try assumption. now rewrite append_nil_r.
Qed.

(** X18. [validateEmail] accepts exactly the strings of at most 254
    characters of the form [a@b.c] in which [a], [b] and [c] are non-empty
    and hold neither whitespace nor [@] (dots are allowed in them). *)
Theorem validateEmail_accepts_exactly (email : string) :
  valid (validateEmail email) = true <->
  (exists a b c : string,
      email = (a ++ String "@" (b ++ String "." c))%string
      /\ a <> EmptyString /\ b <> EmptyString /\ c <> EmptyString
      /\ Chars.all_in is_plain a = true
      /\ Chars.all_in is_plain b = true
      /\ Chars.all_in is_plain c = true)
  /\ Z.of_nat (String.length email) <= 254.
Proof.
  rewrite <- emailRegex_test_spec. unfold validateEmail.
  destruct (Chars.is_empty email) eqn:He.
  - destruct email; [|discriminate He]. cbn. intuition discriminate.
  - destruct (emailRegex_test email); cbn [negb].
    + destruct (Z.ltb_spec 254 (Z.of_nat (String.length email))); cbn.
      * split; [discriminate|]. intros [_ Hle]. lia.
      * split; [intros _; split; [reflexivity|lia]|reflexivity].
    + cbn. intuition discriminate.
Qed.

Lemma trimStart_empty (s : string) :
  trimStart s = EmptyString <-> Chars.all_in is_space s = true.
Proof.
  induction s as [|c s IH]; cbn [trimStart Chars.all_in]; [easy|].
  destruct (is_space c); cbn [andb]; [exact IH|].
  split; discriminate.
Qed.

Lemma trimEnd_empty (s : string) :
  trimEnd s = EmptyString <-> Chars.all_in is_space s = true.
Proof.
  induction s as [|c s IH]; cbn [trimEnd Chars.all_in]; [easy|].
  destruct (trimEnd s) as [|d t] eqn:E.
  - destruct (is_space c); cbn [andb]; [|split; discriminate].
    split; intros _; [now apply IH|reflexivity].
  - split; [discriminate|]. intros Hall. apply andb_true_iff in Hall.
    destruct Hall as [_ Hall]. apply IH in Hall. discriminate Hall.
Qed.

Lemma trimStart_head (s : string) :
  match trimStart s with
  | EmptyString => True
  | String c _ => is_space c = false
  end.
Proof.
  induction s as [|c s IH]; cbn [trimStart]; [exact I|].
  destruct (is_space c) eqn:E; [exact IH|exact E].
Qed.

Lemma trim_empty (s : string) :
  trim s = EmptyString <-> Chars.all_in is_space s = true.
Proof.
  unfold trim. rewrite trimEnd_empty, <- (trimStart_empty s).
  pose proof (trimStart_head s) as Hhead.
  destruct (trimStart s) as [|c t]; [easy|].
  cbn [Chars.all_in]. rewrite Hhead. cbn. split; discriminate.
Qed.

(** X19. [validateName] reports "Name is required" exactly for the names
    made of whitespace only (the empty name among them); any other name is
    judged by the length of its trimmed form (at least 2) and then by its
    untrimmed length (at most 100). *)
Theorem validateName_cases (name : string) :
  validateName name
  = if Chars.all_in is_space name then rejected "Name is required"
    else if Z.of_nat (String.length (trim name)) <? 2
    then rejected "Name must be at least 2 characters long"
    else if 100 <? Z.of_nat (String.length name)
    then rejected "Name is too long"
    else accepted.
Proof.
  unfold validateName.
  assert (Hreq : Chars.is_empty name
                 || (Z.of_nat (String.length (trim name)) =? 0)
                 = Chars.all_in is_space name).
  { destruct (Chars.all_in is_space name) eqn:Hall.
    - apply trim_empty in Hall. rewrite Hall. apply orb_true_r.
    - destruct name as [|c name]; [discriminate Hall|]. cbn [Chars.is_empty orb].
      destruct (trim (String c name)) as [|d t] eqn:E; [|reflexivity].
      apply trim_empty in E. congruence. }
  now rewrite Hreq.
Qed.

Example validateEmail_examples :
  validateEmail "a@x.com" = accepted
  /\ validateEmail "first.last@mail.example.org" = accepted
  /\ validateEmail "a@b" = rejected "Invalid email format"
  /\ validateEmail "a b@x.com" = rejected "Invalid email format"
  /\ validateEmail "a@@x.com" = rejected "Invalid email format"
  /\ validateEmail "" = rejected "Email is required".
Proof. repeat split; reflexivity. Qed.

Example validateName_examples :
  validateName "Ana" = accepted
  /\ validateName "   " = rejected "Name is required"
  /\ validateName "  A " = rejected "Name must be at least 2 characters long".
Proof. repeat split; reflexivity. Qed.

End ValidatorFacts.

(* ================================================================== *)
(** * The controller *)
(* ================================================================== *)

Section ControllerFacts.

Import AuthService AuthController.

Context `{BcryptLib} {engine : Engine}.
Variable cfg : JWTService.config.

Lemma validateRequired_field (f : field) (fieldName : string) :
  Validators.valid (Validators.validateRequired (to_value f) fieldName)
  = negb (Chars.is_empty (text f)).
Proof. destruct f as [[|c s]|]; reflexivity. Qed.

(** X21. The status of the login endpoint: 400 when the email or the
    password is absent or empty; otherwise 429 when the email is locked;
    otherwise 200 when the email is stored and the password compares
    equal, and 401 when it is not stored or the password differs.  On a
    400 the state is unchanged. *)
Theorem login_endpoint_status (email_ password_ : field) (now : Z) (st : state) :
  status (fst (AuthController.login cfg email_ password_ now st))
  = (if Chars.is_empty (text email_) || Chars.is_empty (text password_) then 400
     else if fst (RateLimiter.isLocked now (text email_) (loginAttempts st))
     then 429
     else match map_get (text email_) (users st) with
          | Some u =>
              if bcrypt_compare (text password_) (password u) then 200 else 401
          | None => 401
          end)
  /\ (Chars.is_empty (text email_) || Chars.is_empty (text password_) = true ->
      snd (AuthController.login cfg email_ password_ now st) = st).
Proof.
  unfold AuthController.login. cbv zeta.
  rewrite !validateRequired_field.
  destruct (Chars.is_empty (text email_)) eqn:He; cbn [negb orb];
    [split; reflexivity|].
  destruct (Chars.is_empty (text password_)) eqn:Hp; cbn [negb];
    [split; reflexivity|].
  split; [|discriminate].
  unfold AuthService.login. cbn [login_email login_password].
  rewrite He, Hp. cbn [orb].
  destruct (RateLimiter.isLocked now (text email_) (loginAttempts st))
    as [[|] attempts]; cbn [fst]; [reflexivity|].
  destruct (map_get (text email_) (users st)) as [u|]; [|reflexivity].
  unfold BcryptService.comparePassword.
  destruct (bcrypt_compare (text password_) (password u)); reflexivity.
Qed.

(** X22. The refresh endpoint never answers 200: it answers 400 when the
    token is absent or empty and 401 for every token it is given, with
    "Invalid refresh token" or "User not found". *)
Theorem refresh_endpoint_never_succeeds (t : option JWTService.token) (now : Z)
        (st : state) :
  AuthController.refreshToken cfg t now st
  = if Middleware.token_missing t
    then {| status := 400; json := Error (Some "Refresh token is required") |}
    else match t with
         | Some t' =>
             match JWTService.verifyRefreshToken cfg t' now with
             | Some _ => {| status := 401; json := Error (Some msg_not_found) |}
             | None => {| status := 401; json := Error (Some msg_invalid_refresh) |}
             end
         | None => {| status := 400;
                      json := Error (Some "Refresh token is required") |}
         end.
Proof.
  unfold AuthController.refreshToken.
  destruct t as [t|]; [|reflexivity].
  destruct (Middleware.token_missing (Some t)); [reflexivity|].
  rewrite (refreshAccessToken_never_returns cfg t now st).
  destruct (JWTService.verifyRefreshToken cfg t now); reflexivity.
Qed.

(** X23. The register endpoint never answers 201: every request gets 400
    and leaves the state unchanged.  A request whose email and name the
    validators accept, whose password passes [validatePassword] and whose
    email is not a key of [users] gets the engine's error of line 60 as
    its error body. *)
Theorem register_endpoint_answers_400 (email_ password_ name_ role_ : field)
        (rnd_id salt : string) (now : Z) (st : state) :
  let result := AuthController.register email_ password_ name_ role_
                  rnd_id salt now st in
  let ok := Validators.valid (Validators.validateEmail (text email_))
            && Validators.valid (Validators.validateName (text name_))
            && match password_ with
               | Some p => BcryptService.valid (BcryptService.validatePassword p)
               | None => false
               end
            && negb (map_has (text email_) (users st)) in
  status (fst result) = 400
  /\ snd result = st
  /\ (forall v : JS.value, json (fst result) <> Registered v)
  /\ (ok = true -> json (fst result) = Error (Some line60_error)).
Proof.
  cbv zeta. unfold AuthController.register. cbv zeta.
  destruct (Validators.valid (Validators.validateEmail (text email_))) eqn:Hve;
    cbn [negb andb]; [|repeat split; discriminate].
  destruct (Validators.valid (Validators.validateName (text name_))) eqn:Hvn;
    cbn [negb andb]; [|repeat split; discriminate].
  destruct password_ as [p|]; [|repeat split; discriminate].
  destruct (BcryptService.valid (BcryptService.validatePassword p)) eqn:Hvp;
    cbn [negb andb]; [|repeat split; discriminate].
  assert (He : Chars.is_empty (text email_) = false).
  { destruct (text email_); [discriminate Hve|reflexivity]. }
  assert (Hn : Chars.is_empty (text name_) = false).
  { destruct (text name_); [discriminate Hvn|reflexivity]. }
  assert (Hp : Chars.is_empty p = false).
  { destruct p; [discriminate Hvp|reflexivity]. }
  unfold AuthService.register, BcryptService.hashPassword.
  cbn [reg_email reg_password reg_name reg_role].
  rewrite He, Hp, Hn, Hvp. cbn [orb negb].
  destruct (map_has (text email_) (users st)) eqn:Hhas; cbn [negb];
    repeat split; try discriminate; reflexivity.
Qed.

End ControllerFacts.
